(** * manga-downloader: a shallow embedding of the range, aggregation,
      reconciliation, download and session logic, and its properties.

    Python values are modelled as follows.
    - [str] is [string]; a character is a code point below 256.
    - [int] is [Z]; [Optional[int]] is [option Z].
    - [dict] and [set] are stdpp's [gmap] and [gset].
    - A raised exception is the [Raise] outcome of a computation in the
      monad [M]; state changes made before the raise are kept.
    - The web sites, the file system and the Textual widgets are the
      environment: the sites are an oracle [Web], the file system and
      the log are fields of [World]. *)

From Stdlib Require Import ZArith Ascii String List Bool Lia.
From stdpp Require Import base option list strings gmap pretty sorting.

Set Warnings "-register-all".

Local Open Scope string_scope.
Local Open Scope Z_scope.
Local Open Scope list_scope.

(** ** Python string primitives *)

Module PyStr.

Definition ord (c : ascii) : N := N_of_ascii c.
Definition chr (n : N) : ascii := ascii_of_N n.

Definition between (lo hi n : N) : bool := ((lo <=? n) && (n <=? hi))%N.

(** [str.isspace] on one character: TAB..CR, FS..US, SPACE, NEL, NBSP. *)
Definition isspace (c : ascii) : bool :=
  let n := ord c in
  between 9 13 n || between 28 32 n || (n =? 133)%N || (n =? 160)%N.

(** [str.lower] on one character: A..Z and the Latin-1 capitals. *)
Definition lower_char (c : ascii) : ascii :=
  let n := ord c in
  if between 65 90 n || between 192 214 n || between 216 222 n
  then chr (n + 32) else c.

Fixpoint lower (s : string) : string :=
  match s with
  | EmptyString => EmptyString
  | String c s' => String (lower_char c) (lower s')
  end.

Fixpoint lstrip_by (p : ascii -> bool) (s : string) : string :=
  match s with
  | EmptyString => EmptyString
  | String c s' => if p c then lstrip_by p s' else s
  end.

Fixpoint rstrip_by (p : ascii -> bool) (s : string) : string :=
  match s with
  | EmptyString => EmptyString
  | String c s' =>
      match rstrip_by p s' with
      | EmptyString => if p c then EmptyString else String c EmptyString
      | r => String c r
      end
  end.

Definition strip_by (p : ascii -> bool) (s : string) : string :=
  rstrip_by p (lstrip_by p s).

(** [s.strip()] *)
Definition strip (s : string) : string := strip_by isspace s.

(** [s.strip(chars)] *)
Definition strip_chars (chars : list ascii) (s : string) : string :=
  strip_by (fun c => bool_decide (c ∈ chars)) s.

(** [bool(s)] *)
Definition truthy (s : string) : bool :=
  match s with EmptyString => false | _ => true end.

(** [a or b] on strings *)
Definition or_else (a b : string) : string := if truthy a then a else b.

(** [s.split(sep)[0]] for a one-character separator *)
Fixpoint split_head (sep : ascii) (s : string) : string :=
  match s with
  | EmptyString => EmptyString
  | String c s' =>
      if bool_decide (c = sep) then EmptyString else String c (split_head sep s')
  end.

(** [s.rfind(c)], -1 when absent *)
Fixpoint rfind_from (c : ascii) (s : string) (i : Z) (found : Z) : Z :=
  match s with
  | EmptyString => found
  | String d s' => rfind_from c s' (i + 1) (if bool_decide (d = c) then i else found)
  end.

Definition rfind (c : ascii) (s : string) : Z := rfind_from c s 0 (-1).

(** [s[i:i+1]] and [s[i:]] for [0 <= i] *)
Definition char_at (s : string) (i : Z) : option ascii := String.get (Z.to_nat i) s.

Definition drop (i : Z) (s : string) : string :=
  String.substring (Z.to_nat i) (String.length s - Z.to_nat i) s.

(** [sub in s] *)
Fixpoint contains (sub s : string) : bool :=
  String.prefix sub s ||
  match s with
  | EmptyString => false
  | String _ s' => contains sub s'
  end.

(** [str(n)] and [f"{n:03d}"] for a non-negative [n] *)
Definition str_of_nat (n : nat) : string := pretty (N.of_nat n).

Definition zfill3 (n : nat) : string :=
  let d := str_of_nat n in
  String.concat "" (replicate (3 - String.length d)%nat "0") +:+ d.

Definition str_of_int (z : Z) : string := pretty z.

End PyStr.

(** ** sources/base.py *)

Record Manga := mkManga {
  m_slug : string;
  m_title : string;
  m_cover : option string
}.

Record Chapter := mkChapter {
  ch_id : string;
  ch_slug : string;
  ch_number : option string;
  ch_title : string
}.

Global Instance Manga_eq_dec : EqDecision Manga.
Proof. solve_decision. Defined.

Global Instance Chapter_eq_dec : EqDecision Chapter.
Proof. solve_decision. Defined.

(** ** sources/registry.py *)

(** The two concrete subclasses of [BaseClient]. *)
Inductive Client := KissLoveClient | MangaKatanaClient.

Global Instance Client_eq_dec : EqDecision Client.
Proof. solve_decision. Defined.

Definition list_sources : list string := ["kisslove"; "mangakatana"].

Definition get_client (source : string) : Client :=
  let source := PyStr.strip (PyStr.lower source) in
  if bool_decide (source = "mangakatana") then MangaKatanaClient else KissLoveClient.

(** ** Exceptions and the computation monad *)

Inductive Exn :=
| DownloadError (msg : string)     (* downloader.DownloadError *)
| OSError                          (* OSError and its subclasses *)
| JSONDecodeError                  (* json.JSONDecodeError *)
| UnicodeDecodeError
| AttributeError
| KeyError
| SiteError (exc : string).        (* raised by requests or by a scraper;
                                      [exc] names the exception class *)

Global Instance Exn_eq_dec : EqDecision Exn.
Proof. solve_decision. Defined.

Inductive Outcome (A : Type) :=
| Return (a : A)
| Raise (e : Exn).
Arguments Return {A} a.
Arguments Raise {A} e.

(** A computation reads and writes a state [S] and returns or raises;
    the state reached when an exception is raised is kept. *)
Definition M (S A : Type) : Type := S → Outcome A * S.

Module MonadM.

Definition ret {S A} (a : A) : M S A := λ s, (Return a, s).

Definition bind {S A B} (c : M S A) (k : A → M S B) : M S B :=
  λ s, match c s with
       | (Return a, s') => k a s'
       | (Raise e, s') => (Raise e, s')
       end.

Definition raise {S A} (e : Exn) : M S A := λ s, (Raise e, s).
Definition get {S} : M S S := λ s, (Return s, s).
Definition gets {S A} (f : S → A) : M S A := λ s, (Return (f s), s).
Definition modify {S} (f : S → S) : M S unit := λ s, (Return tt, f s).

(** What a site call gives back: its value, or the class of the
    exception it raises (a requests exception, or whatever the scraper
    raises on a page it cannot parse). *)
Inductive Answer (A : Type) :=
| Answered (a : A)
| Failed (exc : string).
Arguments Answered {A} a.
Arguments Failed {A} exc.

Definition of_answer {S A} (o : Answer A) : M S A :=
  λ s, match o with
       | Answered a => (Return a, s)
       | Failed exc => (Raise (SiteError exc), s)
       end.

(** [try: c  except <handled>: h] *)
Definition try_except {S A} (c : M S A) (handled : Exn → bool) (h : M S A) : M S A :=
  λ s, match c s with
       | (Raise e, s') => if handled e then h s' else (Raise e, s')
       | r => r
       end.

(** Running [c] to its outcome, as the thread that runs a worker does. *)
Definition outcome_of {S A} (c : M S A) : M S (Outcome A) :=
  λ s, (Return (c s).1, (c s).2).

(** [for x in l: body x] *)
Fixpoint for_each {S A} (l : list A) (body : A → M S unit) : M S unit :=
  match l with
  | [] => ret tt
  | x :: l' => bind (body x) (λ _, for_each l' body)
  end.

(** [when b: c] *)
Definition when {S} (b : bool) (c : M S unit) : M S unit :=
  if b then c else ret tt.

End MonadM.
Import MonadM.

Global Instance M_ret {S} : MRet (M S) := λ A a, ret a.
Global Instance M_bind {S} : MBind (M S) := λ A B k c, bind c k.

(** ** The environment: file system, log, progress bars, web sites *)

(** A path is the list of its components, innermost first, relative to
    the working directory: [Path("downloads") / "a" / "b"] is
    ["b"; "a"; "downloads"]. *)
Abbreviation Path := (list string).
Definition path_join (p : Path) (name : string) : Path := name :: p.
Infix "//" := path_join (at level 40, left associativity).

(** The content of a file: raw bytes, or a zip archive with its entries
    ([None] for a directory entry). *)
Inductive FileData :=
| Bytes (data : string)
| Archive (entries : list (string * option FileData)).

Inductive Node :=
| Dir
| File (data : FileData).

Definition is_dir (n : option Node) : bool :=
  match n with Some Dir => true | _ => false end.

Inductive Request :=
| ReqSearch (c : Client) (query : string) (page : Z)
| ReqChapters (c : Client) (slug : string)
| ReqChapterPages (c : Client) (chapter_id : string)
| ReqGet (c : Client) (url : string).

Global Instance Request_eq_dec : EqDecision Request.
Proof. solve_decision. Defined.

(** A progress task of rich's [Progress]: description, total, completed. *)
Record Task := mkTask { t_description : string; t_total : nat; t_completed : nat }.

(** The session file at [Path.home() / "manga_downloader_state.json"]:
    what [read_text(encoding="utf-8")] followed by [json.loads] makes of
    its bytes. [json.dumps] followed by [json.loads] is the identity on
    the payloads written here. *)
Inductive Json :=
| JNull
| JBool (b : bool)
| JInt (z : Z)
| JFloat (repr : string)
| JStr (s : string)
| JList (l : list Json)
| JObject (items : list (string * Json)).

Inductive StateFile :=
| SF_missing                       (* the path does not exist *)
| SF_unreadable                    (* exists, reading raises OSError *)
| SF_not_utf8                      (* bytes that do not decode as UTF-8 *)
| SF_not_json (text : string)      (* text that json.loads rejects *)
| SF_json (doc : Json).            (* a JSON document *)

Record World := mkWorld {
  fs : gmap (list string) Node;    (* the tree below the working directory *)
  state_file : StateFile;
  state_file_writable : bool;      (* whether write_text on it succeeds *)
  requests : list Request;         (* calls made to the sites, oldest first *)
  log_lines : list string;         (* lines written to the log, oldest first *)
  tasks : list Task                (* rich progress tasks, by task id *)
}.

Definition set_fs (f : gmap (list string) Node → gmap (list string) Node) (w : World) : World :=
  mkWorld (f (fs w)) (state_file w) (state_file_writable w) (requests w) (log_lines w) (tasks w).
Definition set_state_file (x : StateFile) (w : World) : World :=
  mkWorld (fs w) x (state_file_writable w) (requests w) (log_lines w) (tasks w).
Definition add_request (r : Request) (w : World) : World :=
  mkWorld (fs w) (state_file w) (state_file_writable w) (requests w ++ [r]) (log_lines w) (tasks w).
Definition add_log_line (l : string) (w : World) : World :=
  mkWorld (fs w) (state_file w) (state_file_writable w) (requests w) (log_lines w ++ [l]) (tasks w).
Definition set_tasks (f : list Task → list Task) (w : World) : World :=
  mkWorld (fs w) (state_file w) (state_file_writable w) (requests w) (log_lines w) (f (tasks w)).

(** *** pathlib *)

Module Pathlib.

(** Every component from [p] outwards is a directory. *)
Fixpoint dirs_ok (t : gmap (list string) Node) (p : Path) : bool :=
  match p with
  | [] => true
  | _ :: parent => is_dir (t !! p) && dirs_ok t parent
  end.

(** The node a path resolves to; the working directory is a directory. *)
Definition resolve (t : gmap (list string) Node) (p : Path) : option Node :=
  match p with
  | [] => Some Dir
  | _ :: parent => if dirs_ok t parent then t !! p else None
  end.

(** [p.exists()] *)
Definition path_exists (t : gmap (list string) Node) (p : Path) : bool :=
  bool_decide (is_Some (resolve t p)).

(** [p.mkdir(parents=True, exist_ok=True)]; [None] when a component
    exists and is not a directory. *)
Fixpoint mkdir_p (t : gmap (list string) Node) (p : Path) : option (gmap (list string) Node) :=
  match p with
  | [] => Some t
  | _ :: parent =>
      match mkdir_p t parent with
      | None => None
      | Some t1 =>
          match t1 !! p with
          | None => Some (<[p := Dir]> t1)
          | Some Dir => Some t1
          | Some (File _) => None
          end
      end
  end.

(** Creating or truncating a file and writing [d]: the parent must be a
    directory and the path itself must not be one. *)
Definition write_file (t : gmap (list string) Node) (p : Path) (d : FileData)
  : option (gmap (list string) Node) :=
  match p with
  | [] => None
  | _ :: parent =>
      if dirs_ok t parent
      then match t !! p with
           | Some Dir => None
           | _ => Some (<[p := File d]> t)
           end
      else None
  end.

(** The names directly below [p], with their nodes: [p.glob("*")]. *)
Definition children (t : gmap (list string) Node) (p : Path) : list (string * Node) :=
  omap (λ kv, match fst kv with
              | name :: parent => if bool_decide (parent = p) then Some (name, snd kv) else None
              | [] => None
              end) (map_to_list t).

End Pathlib.
Import Pathlib.

(** *** The web sites *)

(** A streamed HTTP response: whether the status is a success, the body
    chunks that arrive, and whether the stream breaks after them. *)
Record Response := mkResponse {
  resp_ok : bool;
  resp_chunks : list string;
  resp_broken : bool
}.

(** What the sites answer. The scrapers of [sources/kisslove.py] and
    [sources/mangakatana.py] are seen through their four methods. *)
Record Web := mkWeb {
  web_search : Client → string → Z → Answer (list Manga);
  web_chapters : Client → string → Answer (list Chapter);
  web_chapter_pages : Client → string → Answer (list string);
  web_get : Client → string → Answer Response
}.

(** ** utils.py *)

(** The characters of [_INVALID_WIN_CHARS]: < > : double quote / \ | ? * *)
Definition _INVALID_WIN_CHARS : list ascii :=
  ["<"; ">"; ":"; PyStr.chr 34; "/"; "\"; "|"; "?"; "*"]%char.

(** [_INVALID_WIN_RE.sub(replacement, name)] *)
Fixpoint _INVALID_WIN_RE_sub (replacement name : string) : string :=
  match name with
  | EmptyString => EmptyString
  | String c name' =>
      (if bool_decide (c ∈ _INVALID_WIN_CHARS) then replacement else String c EmptyString)
      +:+ _INVALID_WIN_RE_sub replacement name'
  end.

Definition sanitize_filename (name : string) (replacement : string) : string :=
  let cleaned := _INVALID_WIN_RE_sub replacement name in
  let cleaned := PyStr.strip_chars ["."%char] (PyStr.strip cleaned) in
  PyStr.or_else cleaned "untitled".

Definition ensure_dir (path : Path) : M World Path :=
  w ← get;
  match mkdir_p (fs w) path with
  | Some t => modify (set_fs (λ _, t));; ret path
  | None => raise OSError
  end.

(** [os.path.splitext] (POSIX): the loop that skips the leading dots of
    the last component. *)
Fixpoint splitext_scan (fuel : nat) (p : string) (filenameIndex dotIndex : Z) : bool :=
  match fuel with
  | O => false
  | S fuel' =>
      if filenameIndex <? dotIndex
      then match PyStr.char_at p filenameIndex with
           | Some "."%char => splitext_scan fuel' p (filenameIndex + 1) dotIndex
           | _ => true
           end
      else false
  end.

(** The extension part of [os.path.splitext p]. *)
Definition splitext_ext (p : string) : string :=
  let sepIndex := PyStr.rfind "/" p in
  let dotIndex := PyStr.rfind "." p in
  if (sepIndex <? dotIndex) && splitext_scan (String.length p) p (sepIndex + 1) dotIndex
  then PyStr.drop dotIndex p
  else "".

Definition guess_ext_from_url (url : string) : string :=
  let base := PyStr.split_head "?" url in
  let ext := splitext_ext base in
  if negb (PyStr.truthy ext) then ".jpg" else ext.

(** ** downloader.py *)

(** [enumerate(l, start)] *)
Fixpoint enumerate {A} (start : nat) (l : list A) : list (nat * A) :=
  match l with
  | [] => []
  | x :: l' => (start, x) :: enumerate (S start) l'
  end.

(** [progress.advance(task_id)] *)
Definition progress_advance (task_id : nat) : M World unit :=
  w ← get;
  match tasks w !! task_id with
  | Some t =>
      modify (set_tasks (λ ts,
        <[task_id := mkTask (t_description t) (t_total t) (S (t_completed t))]> ts))
  | None => raise KeyError
  end.

(** [progress.add_task(description, total=total)] *)
Definition progress_add_task (description : string) (total : nat) : M World nat :=
  w ← get;
  modify (set_tasks (λ ts, ts ++ [mkTask description total 0]));;
  ret (length (tasks w)).

Definition name_le (a b : string * option FileData) : Prop := String.leb a.1 b.1 = true.

Global Instance name_le_dec a b : Decision (name_le a b).
Proof. unfold name_le. apply _. Defined.

(** The entry [zf.write(path, path.name)] adds for a child of the chapter
    directory. *)
Definition zip_entry (child : string * Node) : string * option FileData :=
  match child.2 with
  | Dir => (child.1, None)
  | File d => (child.1, Some d)
  end.

Definition _make_cbz (chapter_dir cbz_path : Path) : M World unit :=
  w ← get;
  let entries := merge_sort name_le (zip_entry <$> children (fs w) chapter_dir) in
  match write_file (fs w) cbz_path (Archive entries) with
  | Some t => modify (set_fs (λ _, t))
  | None => raise OSError
  end.

(** The [log] callback of [download_chapter]. The one callback passed in
    the repository is [MangaFetcherApp._log], which writes the line to
    the log widget; [log = true] stands for it and [false] for [None]. *)
Definition write_log (message : string) : M World unit :=
  modify (add_log_line message).

Section Downloader.

Context (web : Web).

(** [client.chapter_pages(chapter_id)] *)
Definition chapter_pages (client : Client) (chapter_id : string) : M World (list string) :=
  modify (add_request (ReqChapterPages client chapter_id));;
  of_answer (web_chapter_pages web client chapter_id).

(** [client.session.get(url, stream=True, timeout=client.timeout)] *)
Definition session_get (client : Client) (url : string) : M World Response :=
  modify (add_request (ReqGet client url));;
  of_answer (web_get web client url).

(** [resp.raise_for_status()] *)
Definition raise_for_status (resp : Response) : M World unit :=
  if resp_ok resp then ret tt else raise (SiteError "HTTPError").

(** The [with dest.open("wb") as f:] block: the file is created, the
    non-empty chunks that arrive are written, and a broken stream
    raises with the partial file left in place. *)
Definition write_chunks (dest : Path) (resp : Response) : M World unit :=
  w ← get;
  match write_file (fs w) dest
          (Bytes (String.concat "" (filter (λ c, PyStr.truthy c = true) (resp_chunks resp)))) with
  | Some t =>
      modify (set_fs (λ _, t));;
      if resp_broken resp then raise (SiteError "ChunkedEncodingError") else ret tt
  | None => raise OSError
  end.

(** One iteration of the page loop of [download_chapter]. *)
Definition download_page (client : Client) (chapter : Chapter) (chapter_dir : Path)
    (npages : nat) (progress : bool) (task_id : option nat)
    (log : bool) (page : nat * string) : M World unit :=
  let '(idx, url) := page in
  let ext := guess_ext_from_url url in
  let filename := PyStr.zfill3 idx +:+ ext in
  let dest := chapter_dir // filename in
  let advance :=
    match progress, task_id with
    | true, Some tid => progress_advance tid
    | _, _ => ret tt
    end in
  w ← get;
  if path_exists (fs w) dest then advance
  else
    resp ← session_get client url;
    raise_for_status resp;;
    write_chunks dest resp;;
    advance;;
    when (log && (idx mod 5 =? 0)%nat)
      (write_log (ch_title chapter +:+ ": " +:+ PyStr.str_of_nat idx +:+ "/" +:+ PyStr.str_of_nat npages)).

Definition download_chapter (client : Client) (manga_title : string) (chapter : Chapter)
    (output_dir : Path) (cbz : bool) (pages : option (list string))
    (progress : bool) (task_id : option nat) (log : bool) : M World Path :=
  manga_dir ← ensure_dir (output_dir // sanitize_filename manga_title "_");
  let chapter_name := sanitize_filename (ch_title chapter) "_" in
  chapter_dir ← ensure_dir (manga_dir // chapter_name);
  pages ← match pages with
          | Some (u :: us) => ret (u :: us)
          | _ => chapter_pages client (ch_id chapter)
          end;
  match pages with
  | [] => raise (DownloadError ("No pages found for " +:+ ch_title chapter))
  | _ =>
      for_each (enumerate 1 pages)
        (download_page client chapter chapter_dir (length pages) progress task_id log);;
      when cbz (_make_cbz chapter_dir (manga_dir // (chapter_name +:+ ".cbz")));;
      ret chapter_dir
  end.

Definition download_chapters_cli (client : Client) (manga_title : string)
    (chapters : list Chapter) (output_dir : Path) (cbz : bool) : M World unit :=
  for_each chapters (λ chapter,
    pages ← chapter_pages client (ch_id chapter);
    task_id ← progress_add_task (ch_title chapter) (length pages);
    _ ← download_chapter client manga_title chapter output_dir cbz (Some pages)
          true (Some task_id) false;
    ret tt).

End Downloader.

(** ** cli.py *)

(** [x or d] for an [Optional[int]] x: [None] and [0] are falsy. *)
Definition int_or (x : option Z) (d : Z) : Z :=
  match x with
  | Some v => if v =? 0 then d else v
  | None => d
  end.

(** [l[a:b]] for integers [a] and [b], negative ones counting from the end. *)
Definition slice_index (len i : Z) : Z :=
  if i <? 0 then Z.max (i + len) 0 else Z.min i len.

Definition py_slice {A} (l : list A) (a b : Z) : list A :=
  let len := Z.of_nat (length l) in
  let lo := slice_index len a in
  let hi := slice_index len b in
  take (Z.to_nat (hi - lo)) (drop (Z.to_nat lo) l).

(** The bounds [_select_range] slices with, lines 32-37; [None] when the
    chapter list is empty. *)
Definition _select_range_bounds (chapters : list Chapter) (start end_ : option Z)
  : option (Z * Z) :=
  match chapters with
  | [] => None
  | _ =>
      let len := Z.of_nat (length chapters) in
      let s := int_or start 1 in
      let e := int_or end_ len in
      let s := Z.max 1 (Z.min s len) in
      let e := Z.max 1 (Z.min e len) in
      Some (if e <? s then (e, s) else (s, e))
  end.

Definition _select_range (chapters : list Chapter) (start end_ : option Z) : list Chapter :=
  match _select_range_bounds chapters start end_ with
  | None => []
  | Some (s, e) => py_slice chapters (s - 1) e
  end.

(** ** tui.py *)

(** A value of [manga_cache]: a dict with the keys "range_start",
    "range_end" and "chapter_index"; a missing key reads as [None]. Every
    dict stored has the key "chapter_index", so it is truthy. *)
Record CacheEntry := mkCacheEntry {
  c_range_start : option Z;
  c_range_end : option Z;
  c_chapter_index : option Z
}.

(** A value of [source_state], built by [_save_state]. *)
Record SavedState := mkSavedState {
  ss_mangas : list (string * Manga);
  ss_chapters : list Chapter;
  ss_selected_slug : option string;
  ss_selected_source : option string;
  ss_range_start : option Z;
  ss_range_end : option Z;
  ss_chapter_index : option Z;
  ss_results_index : option Z;
  ss_last_query : option string;
  ss_sources : list string
}.

(** The attributes of [MangaFetcherApp] read or written below, and the
    two list-view cursors and the theme that Textual keeps. *)
Record App := mkApp {
  source_name : string;
  client : Client;
  mangas : list (string * Manga);
  chapters : list Chapter;
  selected_manga : option Manga;
  selected_manga_source : option string;
  range_start : option Z;
  range_end : option Z;
  source_state : gmap string SavedState;
  manga_cache : gmap (string * string) CacheEntry;
  last_query : option string;
  last_selected_slug : option string;
  last_selected_source : option string;
  last_selected_title : option string;
  selected_sources : list string;
  status_progress : option string;
  downloaded_chapters : gmap (string * string) (gset string);
  theme_mode : string;
  theme_name : option string;
  theme : string;
  results_index : option Z;
  chapters_index : option Z
}.

Definition set_source_name (x : string) (a : App) : App :=
  mkApp x (client a) (mangas a) (chapters a) (selected_manga a) (selected_manga_source a) (range_start a) (range_end a) (source_state a) (manga_cache a) (last_query a) (last_selected_slug a) (last_selected_source a) (last_selected_title a) (selected_sources a) (status_progress a) (downloaded_chapters a) (theme_mode a) (theme_name a) (theme a) (results_index a) (chapters_index a).
Definition set_client (x : Client) (a : App) : App :=
  mkApp (source_name a) x (mangas a) (chapters a) (selected_manga a) (selected_manga_source a) (range_start a) (range_end a) (source_state a) (manga_cache a) (last_query a) (last_selected_slug a) (last_selected_source a) (last_selected_title a) (selected_sources a) (status_progress a) (downloaded_chapters a) (theme_mode a) (theme_name a) (theme a) (results_index a) (chapters_index a).
Definition set_mangas (x : list (string * Manga)) (a : App) : App :=
  mkApp (source_name a) (client a) x (chapters a) (selected_manga a) (selected_manga_source a) (range_start a) (range_end a) (source_state a) (manga_cache a) (last_query a) (last_selected_slug a) (last_selected_source a) (last_selected_title a) (selected_sources a) (status_progress a) (downloaded_chapters a) (theme_mode a) (theme_name a) (theme a) (results_index a) (chapters_index a).
Definition set_chapters (x : list Chapter) (a : App) : App :=
  mkApp (source_name a) (client a) (mangas a) x (selected_manga a) (selected_manga_source a) (range_start a) (range_end a) (source_state a) (manga_cache a) (last_query a) (last_selected_slug a) (last_selected_source a) (last_selected_title a) (selected_sources a) (status_progress a) (downloaded_chapters a) (theme_mode a) (theme_name a) (theme a) (results_index a) (chapters_index a).
Definition set_selected_manga (x : option Manga) (a : App) : App :=
  mkApp (source_name a) (client a) (mangas a) (chapters a) x (selected_manga_source a) (range_start a) (range_end a) (source_state a) (manga_cache a) (last_query a) (last_selected_slug a) (last_selected_source a) (last_selected_title a) (selected_sources a) (status_progress a) (downloaded_chapters a) (theme_mode a) (theme_name a) (theme a) (results_index a) (chapters_index a).
Definition set_selected_manga_source (x : option string) (a : App) : App :=
  mkApp (source_name a) (client a) (mangas a) (chapters a) (selected_manga a) x (range_start a) (range_end a) (source_state a) (manga_cache a) (last_query a) (last_selected_slug a) (last_selected_source a) (last_selected_title a) (selected_sources a) (status_progress a) (downloaded_chapters a) (theme_mode a) (theme_name a) (theme a) (results_index a) (chapters_index a).
Definition set_range_start (x : option Z) (a : App) : App :=
  mkApp (source_name a) (client a) (mangas a) (chapters a) (selected_manga a) (selected_manga_source a) x (range_end a) (source_state a) (manga_cache a) (last_query a) (last_selected_slug a) (last_selected_source a) (last_selected_title a) (selected_sources a) (status_progress a) (downloaded_chapters a) (theme_mode a) (theme_name a) (theme a) (results_index a) (chapters_index a).
Definition set_range_end (x : option Z) (a : App) : App :=
  mkApp (source_name a) (client a) (mangas a) (chapters a) (selected_manga a) (selected_manga_source a) (range_start a) x (source_state a) (manga_cache a) (last_query a) (last_selected_slug a) (last_selected_source a) (last_selected_title a) (selected_sources a) (status_progress a) (downloaded_chapters a) (theme_mode a) (theme_name a) (theme a) (results_index a) (chapters_index a).
Definition set_source_state (x : gmap string SavedState) (a : App) : App :=
  mkApp (source_name a) (client a) (mangas a) (chapters a) (selected_manga a) (selected_manga_source a) (range_start a) (range_end a) x (manga_cache a) (last_query a) (last_selected_slug a) (last_selected_source a) (last_selected_title a) (selected_sources a) (status_progress a) (downloaded_chapters a) (theme_mode a) (theme_name a) (theme a) (results_index a) (chapters_index a).
Definition set_manga_cache (x : gmap (string * string) CacheEntry) (a : App) : App :=
  mkApp (source_name a) (client a) (mangas a) (chapters a) (selected_manga a) (selected_manga_source a) (range_start a) (range_end a) (source_state a) x (last_query a) (last_selected_slug a) (last_selected_source a) (last_selected_title a) (selected_sources a) (status_progress a) (downloaded_chapters a) (theme_mode a) (theme_name a) (theme a) (results_index a) (chapters_index a).
Definition set_last_query (x : option string) (a : App) : App :=
  mkApp (source_name a) (client a) (mangas a) (chapters a) (selected_manga a) (selected_manga_source a) (range_start a) (range_end a) (source_state a) (manga_cache a) x (last_selected_slug a) (last_selected_source a) (last_selected_title a) (selected_sources a) (status_progress a) (downloaded_chapters a) (theme_mode a) (theme_name a) (theme a) (results_index a) (chapters_index a).
Definition set_last_selected_slug (x : option string) (a : App) : App :=
  mkApp (source_name a) (client a) (mangas a) (chapters a) (selected_manga a) (selected_manga_source a) (range_start a) (range_end a) (source_state a) (manga_cache a) (last_query a) x (last_selected_source a) (last_selected_title a) (selected_sources a) (status_progress a) (downloaded_chapters a) (theme_mode a) (theme_name a) (theme a) (results_index a) (chapters_index a).
Definition set_last_selected_source (x : option string) (a : App) : App :=
  mkApp (source_name a) (client a) (mangas a) (chapters a) (selected_manga a) (selected_manga_source a) (range_start a) (range_end a) (source_state a) (manga_cache a) (last_query a) (last_selected_slug a) x (last_selected_title a) (selected_sources a) (status_progress a) (downloaded_chapters a) (theme_mode a) (theme_name a) (theme a) (results_index a) (chapters_index a).
Definition set_last_selected_title (x : option string) (a : App) : App :=
  mkApp (source_name a) (client a) (mangas a) (chapters a) (selected_manga a) (selected_manga_source a) (range_start a) (range_end a) (source_state a) (manga_cache a) (last_query a) (last_selected_slug a) (last_selected_source a) x (selected_sources a) (status_progress a) (downloaded_chapters a) (theme_mode a) (theme_name a) (theme a) (results_index a) (chapters_index a).
Definition set_selected_sources (x : list string) (a : App) : App :=
  mkApp (source_name a) (client a) (mangas a) (chapters a) (selected_manga a) (selected_manga_source a) (range_start a) (range_end a) (source_state a) (manga_cache a) (last_query a) (last_selected_slug a) (last_selected_source a) (last_selected_title a) x (status_progress a) (downloaded_chapters a) (theme_mode a) (theme_name a) (theme a) (results_index a) (chapters_index a).
Definition set_status_progress (x : option string) (a : App) : App :=
  mkApp (source_name a) (client a) (mangas a) (chapters a) (selected_manga a) (selected_manga_source a) (range_start a) (range_end a) (source_state a) (manga_cache a) (last_query a) (last_selected_slug a) (last_selected_source a) (last_selected_title a) (selected_sources a) x (downloaded_chapters a) (theme_mode a) (theme_name a) (theme a) (results_index a) (chapters_index a).
Definition set_downloaded_chapters (x : gmap (string * string) (gset string)) (a : App) : App :=
  mkApp (source_name a) (client a) (mangas a) (chapters a) (selected_manga a) (selected_manga_source a) (range_start a) (range_end a) (source_state a) (manga_cache a) (last_query a) (last_selected_slug a) (last_selected_source a) (last_selected_title a) (selected_sources a) (status_progress a) x (theme_mode a) (theme_name a) (theme a) (results_index a) (chapters_index a).
Definition set_theme_mode (x : string) (a : App) : App :=
  mkApp (source_name a) (client a) (mangas a) (chapters a) (selected_manga a) (selected_manga_source a) (range_start a) (range_end a) (source_state a) (manga_cache a) (last_query a) (last_selected_slug a) (last_selected_source a) (last_selected_title a) (selected_sources a) (status_progress a) (downloaded_chapters a) x (theme_name a) (theme a) (results_index a) (chapters_index a).
Definition set_theme_name (x : option string) (a : App) : App :=
  mkApp (source_name a) (client a) (mangas a) (chapters a) (selected_manga a) (selected_manga_source a) (range_start a) (range_end a) (source_state a) (manga_cache a) (last_query a) (last_selected_slug a) (last_selected_source a) (last_selected_title a) (selected_sources a) (status_progress a) (downloaded_chapters a) (theme_mode a) x (theme a) (results_index a) (chapters_index a).
Definition set_theme (x : string) (a : App) : App :=
  mkApp (source_name a) (client a) (mangas a) (chapters a) (selected_manga a) (selected_manga_source a) (range_start a) (range_end a) (source_state a) (manga_cache a) (last_query a) (last_selected_slug a) (last_selected_source a) (last_selected_title a) (selected_sources a) (status_progress a) (downloaded_chapters a) (theme_mode a) (theme_name a) x (results_index a) (chapters_index a).
Definition set_results_index (x : option Z) (a : App) : App :=
  mkApp (source_name a) (client a) (mangas a) (chapters a) (selected_manga a) (selected_manga_source a) (range_start a) (range_end a) (source_state a) (manga_cache a) (last_query a) (last_selected_slug a) (last_selected_source a) (last_selected_title a) (selected_sources a) (status_progress a) (downloaded_chapters a) (theme_mode a) (theme_name a) (theme a) x (chapters_index a).
Definition set_chapters_index (x : option Z) (a : App) : App :=
  mkApp (source_name a) (client a) (mangas a) (chapters a) (selected_manga a) (selected_manga_source a) (range_start a) (range_end a) (source_state a) (manga_cache a) (last_query a) (last_selected_slug a) (last_selected_source a) (last_selected_title a) (selected_sources a) (status_progress a) (downloaded_chapters a) (theme_mode a) (theme_name a) (theme a) (results_index a) x.

(** A [load_chapters] worker thread: spawned, then past its call to the
    site with the answer in hand, then finished. *)
Inductive Worker :=
| W_spawned (slug : string)
| W_fetched (slug : string) (chapters : list Chapter)
| W_finished
| W_failed (e : Exn).

Record Tui := mkTui {
  app : App;
  world : World;
  workers : list Worker
}.

Definition modify_app (f : App → App) : M Tui unit :=
  modify (λ t, mkTui (f (app t)) (world t) (workers t)).
Definition modify_workers (f : list Worker → list Worker) : M Tui unit :=
  modify (λ t, mkTui (app t) (world t) (f (workers t))).
Definition the_app {A} (f : App → A) : M Tui A := gets (λ t, f (app t)).

(** Running a computation on the environment inside the application. *)
Definition in_world {A} (c : M World A) : M Tui A :=
  λ t, let '(r, w) := c (world t) in (r, mkTui (app t) w (workers t)).

(** [__init__], with [theme] as Textual starts it. *)
Definition App_init : App :=
  mkApp "kisslove" (get_client "kisslove") [] [] None None None None ∅ ∅
        None None None None [] None ∅ "dark" None "textual-dark" None None.

(** *** The session file *)

Definition json_of_str (x : option string) : Json :=
  match x with Some v => JStr v | None => JNull end.

Definition json_of_int (x : option Z) : Json :=
  match x with Some v => JInt v | None => JNull end.

(** [payload.get(key)] on a parsed object; of two bindings of a key
    [json.loads] keeps the last, and a missing key reads as [None]. *)
Fixpoint dict_lookup (items : list (string * Json)) (key : string) : option Json :=
  match items with
  | [] => None
  | (k, v) :: items' =>
      match dict_lookup items' key with
      | Some found => Some found
      | None => if bool_decide (k = key) then Some v else None
      end
  end.

Definition dict_get (items : list (string * Json)) (key : string) : Json :=
  default JNull (dict_lookup items key).

(** [v if isinstance(v, str) else None] *)
Definition str_or_none (v : Json) : option string :=
  match v with JStr x => Some x | _ => None end.

(** [self.state_path.write_text(json.dumps(payload), encoding="utf-8")] *)
Definition write_state_file (payload : Json) : M World unit :=
  w ← get;
  if state_file_writable w then modify (set_state_file (SF_json payload))
  else raise OSError.

(** [json.loads(self.state_path.read_text(encoding="utf-8"))] *)
Definition read_state_file : M World Json :=
  w ← get;
  match state_file w with
  | SF_missing => raise OSError
  | SF_unreadable => raise OSError
  | SF_not_utf8 => raise UnicodeDecodeError
  | SF_not_json _ => raise JSONDecodeError
  | SF_json doc => ret doc
  end.

(** *** Reconciliation with the disk *)

(** The test of [_sync_downloaded_from_disk], lines 475-478. *)
Definition chapter_on_disk (t : gmap (list string) Node) (manga_dir : Path)
    (chapter : Chapter) : bool :=
  let chapter_name := sanitize_filename (ch_title chapter) "_" in
  let chapter_dir := manga_dir // chapter_name in
  let cbz_path := manga_dir // (chapter_name +:+ ".cbz") in
  path_exists t chapter_dir || path_exists t cbz_path.

(** The loop of [_sync_downloaded_from_disk], lines 473-480. *)
Definition scan_downloaded (t : gmap (list string) Node) (manga_dir : Path)
    (chapters : list Chapter) : gset string :=
  foldl (λ downloaded chapter,
           if chapter_on_disk t manga_dir chapter
           then downloaded ∪ {[ch_id chapter]} ∪ {[ch_slug chapter]}
           else downloaded)
        ∅ chapters.

(** The bounds [download_range] slices with, lines 414-417. *)
Definition download_range_bounds (chapters : list Chapter) (range_start range_end : option Z)
  : Z * Z :=
  let start := int_or range_start 1 in
  let end_ := int_or range_end (Z.of_nat (length chapters)) in
  if end_ <? start then (end_, start) else (start, end_).

Definition is_OSError (e : Exn) : bool :=
  match e with OSError => true | _ => false end.

Definition is_OSError_or_JSONDecodeError (e : Exn) : bool :=
  match e with OSError | JSONDecodeError => true | _ => false end.

Section TuiApp.

Context (web : Web).

(** What Textual makes of [ListView.index] when the view is cleared and
    [n] items are appended. *)
Context (listview_refill : option Z → nat → option Z).

(** [client.search(query)] and [client.chapters(slug)] *)
Definition client_search (c : Client) (query : string) : M World (list Manga) :=
  modify (add_request (ReqSearch c query 1));;
  of_answer (web_search web c query 1).

Definition client_chapters (c : Client) (slug : string) : M World (list Chapter) :=
  modify (add_request (ReqChapters c slug));;
  of_answer (web_chapters web c slug).

Definition _log (message : string) : M Tui unit := in_world (write_log message).

Definition _set_results (mangas : list (string * Manga)) : M Tui unit :=
  modify_app (λ a, set_results_index (listview_refill (results_index a) (length mangas)) a).

Definition _set_chapters (chapters : list Chapter) : M Tui unit :=
  modify_app (λ a, set_chapters_index (listview_refill (chapters_index a) (length chapters)) a).

Definition _refresh_chapter_list : M Tui unit :=
  chs ← the_app chapters;
  _set_chapters chs.

(** [_update_status] rewrites the text of the status line only. *)
Definition _update_status : M Tui unit := ret tt.

Definition _set_status_progress (text : option string) : M Tui unit :=
  modify_app (set_status_progress text);;
  _update_status.

Definition session_payload (a : App) : Json :=
  JObject [
    ("last_query", json_of_str (last_query a));
    ("selected_source", json_of_str (selected_manga_source a));
    ("selected_slug", json_of_str (m_slug <$> selected_manga a));
    ("selected_title", json_of_str (m_title <$> selected_manga a));
    ("range_start", json_of_int (range_start a));
    ("range_end", json_of_int (range_end a));
    ("sources", JList (JStr <$> selected_sources a));
    ("theme", JStr (theme_mode a));
    ("theme_name", JStr (theme a))
  ].

Definition _save_session : M Tui unit :=
  modify_app (λ a,
    set_theme_mode
      (if PyStr.truthy (theme a) && PyStr.contains "dark" (theme a) then "dark" else "light") a);;
  payload ← the_app session_payload;
  try_except (in_world (write_state_file payload)) is_OSError (ret tt).

Definition _load_session : M Tui unit :=
  w ← gets world;
  match state_file w with
  | SF_missing => ret tt
  | _ =>
      loaded ← try_except
                 (payload ← in_world read_state_file; ret (Some payload))
                 is_OSError_or_JSONDecodeError
                 (ret None);
      match loaded with
      | None => ret tt
      | Some (JObject items) =>
          let theme := str_or_none (dict_get items "theme") in
          let theme_name := str_or_none (dict_get items "theme_name") in
          let sources := match dict_get items "sources" with JList l => l | _ => [] end in
          modify_app (set_last_query (str_or_none (dict_get items "last_query")));;
          modify_app (set_last_selected_source (str_or_none (dict_get items "selected_source")));;
          modify_app (set_last_selected_slug (str_or_none (dict_get items "selected_slug")));;
          modify_app (set_last_selected_title (str_or_none (dict_get items "selected_title")));;
          match theme with
          | Some th =>
              when (bool_decide (th = "dark") || bool_decide (th = "light"))
                (modify_app (set_theme_mode th))
          | None => ret tt
          end;;
          match theme_name with
          | Some tn => when (PyStr.truthy tn) (modify_app (set_theme_name (Some tn)))
          | None => ret tt
          end;;
          modify_app (set_selected_sources (omap str_or_none sources))
      | Some _ => raise AttributeError
      end
  end.

Definition _save_state : M Tui unit :=
  a ← the_app id;
  if negb (PyStr.truthy (source_name a)) then ret tt
  else
    let state :=
      mkSavedState (mangas a) (chapters a) (m_slug <$> selected_manga a)
        (selected_manga_source a) (range_start a) (range_end a)
        (chapters_index a) (results_index a) (last_query a) (selected_sources a) in
    modify_app (λ a, set_source_state (<[source_name a := state]> (source_state a)) a);;
    _save_session.

Definition _update_state : M Tui unit := _save_state.

Definition _save_manga_cache : M Tui unit :=
  a ← the_app id;
  match selected_manga a with
  | None => ret tt
  | Some m =>
      let key := (source_name a, m_slug m) in
      modify_app (λ a,
        set_manga_cache
          (<[key := mkCacheEntry (range_start a) (range_end a) (chapters_index a)]>
             (manga_cache a)) a)
  end.

Definition _coerce_int (value : option Z) : option Z :=
  match value with
  | Some v => Some v
  | None => None
  end.

Definition _set_range_from_cursor (is_start : bool) : M Tui unit :=
  index ← the_app chapters_index;
  match index with
  | None => ret tt
  | Some index =>
      (if is_start
       then modify_app (set_range_start (Some (index + 1)));;
            _log ("Range start set to " +:+ PyStr.str_of_int (index + 1))
       else modify_app (set_range_end (Some (index + 1)));;
            _log ("Range end set to " +:+ PyStr.str_of_int (index + 1)));;
      _refresh_chapter_list;;
      _save_manga_cache;;
      _update_state
  end.

Definition _update_range_from_click (index : Z) : M Tui unit :=
  a ← the_app id;
  match range_start a, range_end a with
  | None, _ =>
      modify_app (set_range_start (Some (index + 1)));;
      _log ("Range start set to " +:+ PyStr.str_of_int (index + 1))
  | Some _, None =>
      modify_app (set_range_end (Some (index + 1)));;
      _log ("Range end set to " +:+ PyStr.str_of_int (index + 1))
  | Some _, Some _ =>
      modify_app (set_range_start (Some (index + 1)));;
      modify_app (set_range_end None);;
      _log ("Range start reset to " +:+ PyStr.str_of_int (index + 1))
  end;;
  _refresh_chapter_list;;
  _save_manga_cache;;
  _update_state.

Definition action_clear_range : M Tui unit :=
  modify_app (set_range_start None);;
  modify_app (set_range_end None);;
  _refresh_chapter_list;;
  _save_manga_cache;;
  _update_state;;
  _update_status.

Definition _sync_downloaded_from_disk : M Tui unit :=
  a ← the_app id;
  w ← gets world;
  match selected_manga a with
  | None => ret tt
  | Some m =>
      let manga_dir := ["downloads"] // sanitize_filename (m_title m) "_" in
      let key := (source_name a, m_slug m) in
      if negb (path_exists (fs w) manga_dir)
      then modify_app (λ a, set_downloaded_chapters (<[key := ∅]> (downloaded_chapters a)) a)
      else
        let downloaded := scan_downloaded (fs w) manga_dir (chapters a) in
        modify_app (λ a, set_downloaded_chapters (<[key := downloaded]> (downloaded_chapters a)) a)
  end.

(** [load_chapters], lines 388-389: up to the answer of the site. *)
Definition load_chapters_fetch (slug : string) : M Tui (list Chapter) :=
  _log ("Loading chapters for " +:+ slug);;
  c ← the_app client;
  in_world (client_chapters c slug).

(** [load_chapters], lines 390-404: what is done with the answer. *)
Definition load_chapters_apply (slug : string) (chapters : list Chapter) : M Tui unit :=
  modify_app (set_chapters chapters);;
  a ← the_app id;
  let key := (source_name a, slug) in
  let cache := manga_cache a !! key in
  match cache with
  | Some c =>
      modify_app (set_range_start (_coerce_int (c_range_start c)));;
      modify_app (set_range_end (_coerce_int (c_range_end c)))
  | None =>
      modify_app (set_range_start None);;
      modify_app (set_range_end None)
  end;;
  _sync_downloaded_from_disk;;
  _set_chapters chapters;;
  let chapter_index := c ← cache; _coerce_int (c_chapter_index c) in
  match chapter_index with
  | Some i => modify_app (set_chapters_index (Some i))
  | None => ret tt
  end;;
  _log ("Loaded " +:+ PyStr.str_of_nat (length chapters) +:+ " chapters").

(** The body of [load_chapters], run without interruption. *)
Definition load_chapters_body (slug : string) : M Tui unit :=
  chapters ← load_chapters_fetch slug;
  load_chapters_apply slug chapters.

(** A call of the [@work(thread=True)] method [load_chapters]: a
    worker thread is started and the caller goes on. *)
Definition load_chapters (slug : string) : M Tui unit :=
  modify_workers (λ ws, ws ++ [W_spawned slug]).

(** Worker [k] runs up to the answer of the site. *)
Definition worker_fetch (k : nat) : M Tui unit :=
  ws ← gets workers;
  match ws !! k with
  | Some (W_spawned slug) =>
      r ← outcome_of (load_chapters_fetch slug);
      match r with
      | Return chs => modify_workers (λ ws, <[k := W_fetched slug chs]> ws)
      | Raise e => modify_workers (λ ws, <[k := W_failed e]> ws)
      end
  | _ => ret tt
  end.

(** Worker [k] runs from the answer of the site to its end. *)
Definition worker_finish (k : nat) : M Tui unit :=
  ws ← gets workers;
  match ws !! k with
  | Some (W_fetched slug chs) =>
      r ← outcome_of (load_chapters_apply slug chs);
      match r with
      | Return _ => modify_workers (λ ws, <[k := W_finished]> ws)
      | Raise e => modify_workers (λ ws, <[k := W_failed e]> ws)
      end
  | _ => ret tt
  end.

Definition _restore_selection_after_search : M Tui unit :=
  a ← the_app id;
  match last_selected_slug a, last_selected_source a with
  | Some slug, Some src =>
      if PyStr.truthy slug && PyStr.truthy src
      then
        match find (λ e : nat * (string * Manga),
                      bool_decide (e.2.1 = src) && bool_decide (m_slug e.2.2 = slug))
                   (enumerate 0 (mangas a)) with
        | Some (idx, (source, manga)) =>
            modify_app (set_results_index (Some (Z.of_nat idx)));;
            modify_app (set_selected_manga_source (Some source));;
            modify_app (set_selected_manga (Some manga));;
            modify_app (set_source_name source);;
            modify_app (set_client (get_client source));;
            load_chapters (m_slug manga);;
            _update_status
        | None => ret tt
        end
      else ret tt
  | _, _ => ret tt
  end.

(** The aggregation loop of [search_manga], lines 376-379, from the
    [results] collected so far. *)
Fixpoint search_sources (sources : list string) (query : string)
    (results : list (string * Manga)) : M Tui (list (string * Manga)) :=
  match sources with
  | [] => ret results
  | source :: sources' =>
      let client := get_client source in
      found ← in_world (client_search client query);
      search_sources sources' query (results ++ ((λ manga, (source, manga)) <$> found))
  end.

(** The body of the worker [search_manga]. *)
Definition search_manga (query : string) : M Tui unit :=
  _log ("Searching: " +:+ query);;
  sources ← the_app selected_sources;
  match sources with
  | [] => _log "Select at least one source before searching"
  | _ =>
      results ← search_sources sources query [];
      modify_app (set_mangas results);;
      _set_results results;;
      _update_state;;
      _restore_selection_after_search;;
      _log ("Found " +:+ PyStr.str_of_nat (length results) +:+ " results")
  end.

(** The body of the worker [download_range]. *)
Definition download_range : M Tui unit :=
  a ← the_app id;
  match selected_manga a, chapters a with
  | None, _ => _log "Select a manga first"
  | Some _, [] => _log "No chapters loaded"
  | Some m, _ =>
      let '(start, end_) := download_range_bounds (chapters a) (range_start a) (range_end a) in
      let selected := py_slice (chapters a) (start - 1) end_ in
      let out_dir := ["downloads"] in
      let key := (source_name a, m_slug m) in
      modify_app (λ a,
        match downloaded_chapters a !! key with
        | Some _ => a
        | None => set_downloaded_chapters (<[key := ∅]> (downloaded_chapters a)) a
        end);;
      let total_chapters := length selected in
      for_each (enumerate 1 selected) (λ '(idx, chapter),
        _set_status_progress
          (Some ("Downloading " +:+ PyStr.str_of_nat idx +:+ "/"
                 +:+ PyStr.str_of_nat total_chapters +:+ ": " +:+ ch_title chapter));;
        a ← the_app id;
        match selected_manga a with
        | None => raise AttributeError
        | Some m =>
            _ ← in_world (download_chapter web (client a) (m_title m) chapter out_dir
                            false None false None true);
            modify_app (λ a,
              set_downloaded_chapters
                (alter (λ d, d ∪ {[ch_id chapter]} ∪ {[ch_slug chapter]}) key
                   (downloaded_chapters a)) a);;
            _refresh_chapter_list
        end);;
      _set_status_progress (Some "Download complete");;
      _log "Done"
  end.

(** [on_list_view_selected] for the results view; [index] is the
    cursor of the view. *)
Definition on_results_selected (index : option Z) : M Tui unit :=
  a ← the_app id;
  let index := int_or index 0 in
  if (0 <=? index) && (index <? Z.of_nat (length (mangas a)))
  then
    match mangas a !! Z.to_nat index with
    | Some (source, manga) =>
        modify_app (set_selected_manga_source (Some source));;
        modify_app (set_selected_manga (Some manga));;
        modify_app (set_source_name source);;
        modify_app (set_client (get_client source));;
        load_chapters (m_slug manga);;
        _update_state;;
        _update_status
    | None => ret tt
    end
  else ret tt.

(** [on_list_view_selected] for the chapters view. *)
Definition on_chapters_selected (index : option Z) : M Tui unit :=
  a ← the_app id;
  match selected_manga a, index with
  | Some m, Some index =>
      let key := (source_name a, m_slug m) in
      let cache := default (mkCacheEntry None None None) (manga_cache a !! key) in
      modify_app (λ a,
        set_manga_cache
          (<[key := mkCacheEntry (c_range_start cache) (c_range_end cache) (Some index)]>
             (manga_cache a)) a);;
      _update_range_from_click index;;
      _update_status
  | _, _ => ret tt
  end.

End TuiApp.

(** ** Vocabulary of the statements *)

(** [keeps v c]: running [c] leaves the view [v] of the state as it was,
    whether [c] returns or raises. *)
Definition keeps {S A X} (v : S → X) (c : M S A) : Prop := ∀ s, v (c s).2 = v s.

(** [succeeds c]: [c] returns from every state. *)
Definition succeeds {S A} (c : M S A) : Prop := ∀ s, ∃ a, (c s).1 = Return a.

(** A view of the application's attributes, and one of the environment. *)
Definition on_app {X} (f : App → X) : Tui → X := λ t, f (app t).
Definition on_world {X} (g : World → X) : Tui → X := λ t, g (world t).

(** The range selection of the active context. *)
Definition range_of (a : App) : option Z * option Z := (range_start a, range_end a).

Arguments set_source_name x a /.
Arguments set_client x a /.
Arguments set_mangas x a /.
Arguments set_chapters x a /.
Arguments set_selected_manga x a /.
Arguments set_selected_manga_source x a /.
Arguments set_range_start x a /.
Arguments set_range_end x a /.
Arguments set_source_state x a /.
Arguments set_manga_cache x a /.
Arguments set_last_query x a /.
Arguments set_last_selected_slug x a /.
Arguments set_last_selected_source x a /.
Arguments set_last_selected_title x a /.
Arguments set_selected_sources x a /.
Arguments set_status_progress x a /.
Arguments set_downloaded_chapters x a /.
Arguments set_theme_mode x a /.
Arguments set_theme_name x a /.
Arguments set_theme x a /.
Arguments set_results_index x a /.
Arguments set_chapters_index x a /.
Arguments PyStr.str_of_int : simpl never.
Arguments PyStr.str_of_nat : simpl never.
Arguments PyStr.zfill3 : simpl never.
Arguments PyStr.contains : simpl never.
Arguments String.append : simpl never.
Arguments sanitize_filename : simpl never.
Arguments guess_ext_from_url : simpl never.

(** The range resolution in the words of the specification: start
    defaults to 1, end to the chapter count, each bound is clamped into
    [1, chapterCount], and the two are swapped when inverted. *)
Definition clamp (lo hi x : Z) : Z := Z.max lo (Z.min x hi).

Definition resolveSelection (chapterCount : Z) (start end_ : option Z) : Z * Z :=
  let s := clamp 1 chapterCount (default 1 start) in
  let e := clamp 1 chapterCount (default chapterCount end_) in
  if e <? s then (e, s) else (s, e).

(** Aggregation that contains failures: the call returns, and every
    source whose search answers has all its results in the list. *)
Definition search_contains_failures (web : Web) (refill : option Z → nat → option Z)
    (query : string) (t : Tui) : Prop :=
  let r := search_manga web refill query t in
  r.1 = Return () ∧
  ∀ source found manga,
    source ∈ selected_sources (app t) →
    web_search web (get_client source) query 1 = Answered found →
    manga ∈ found →
    (source, manga) ∈ mangas (app r.2).

(** The guard against stale loads: worker [k], which holds the chapters
    of [slug], leaves the chapter list and the range alone when it
    finishes while another manga is selected. *)
Definition stale_load_discarded (refill : option Z → nat → option Z) (k : nat) (t : Tui) : Prop :=
  ∀ slug chs,
    workers t !! k = Some (W_fetched slug chs) →
    m_slug <$> selected_manga (app t) ≠ Some slug →
    let r := worker_finish refill k t in
    chapters (app r.2) = chapters (app t) ∧ range_of (app r.2) = range_of (app t).

(** ** Sample data *)

Module Demo.

Definition refill : option Z → nat → option Z :=
  λ _ n, match n with O => None | _ => Some 0 end.

Definition chapter (name : string) : Chapter :=
  mkChapter name name None ("Chapter " +:+ name).

Definition five_chapters : list Chapter :=
  chapter <$> ["5"; "4"; "3"; "2"; "1"].

Definition m1 : Manga := mkManga "/manga/one" "One" None.
Definition m2 : Manga := mkManga "/manga/two" "Two" None.

Definition pages : list string :=
  ["http://img.example/a.png"; "http://img.example/b"; "http://img.example/c.gif?x=1"].

(** Both sites answer; page fetches succeed. *)
Definition web : Web :=
  mkWeb (λ c _ _, match c with
                  | KissLoveClient => Answered [m1]
                  | MangaKatanaClient => Answered [m2]
                  end)
        (λ _ slug, if bool_decide (slug = "/manga/one")
                   then Answered five_chapters else Answered [chapter "9"])
        (λ _ _, Answered pages)
        (λ _ _, Answered (mkResponse true ["zz"] false)).

(** The second site is down, and so is the second page. *)
Definition web_failing : Web :=
  mkWeb (λ c _ _, match c with
                  | KissLoveClient => Answered [m1]
                  | MangaKatanaClient => Failed "ConnectionError"
                  end)
        (web_chapters web)
        (web_chapter_pages web)
        (λ _ url, if bool_decide (url = "http://img.example/b")
                  then Failed "ConnectionError"
                  else Answered (mkResponse true ["xx"; ""; "yy"] false)).

Definition world0 : World := mkWorld ∅ SF_missing true [] [] [].

(** The application after start-up with both sources selected. *)
Definition tui0 : Tui :=
  mkTui (set_selected_sources ["kisslove"; "mangakatana"] App_init) world0 [].

(** The user picks the first result, then the second while the first
    load is still waiting to finish; the second load finishes, the
    user clicks its chapter, and only then the first load is past its
    call to the site. *)
Definition tui_stale : Tui :=
  ((search_manga web refill "q";;
    on_results_selected (Some 0);;
    worker_fetch web 0;;
    on_results_selected (Some 1);;
    worker_fetch web 1;;
    worker_finish refill 1;;
    on_chapters_selected refill (Some 0)) tui0).2.

Definition chapter1 : Chapter := mkChapter "c1" "c1" None "Ch: 1".

(** The world a first download leaves behind when the second page
    fails, and the arguments of that download. *)
Definition world_partial : World :=
  (download_chapter web_failing KissLoveClient "My Manga?" chapter1 ["downloads"]
     true None false None true world0).2.

(** The site lists no page for any chapter. *)
Definition web_no_pages : Web :=
  mkWeb (web_search web) (web_chapters web) (λ _ _, Answered []) (web_get web).

(** A disk with the directory of chapter 5 and the archive of chapter 3
    of the first manga, and the application with that manga selected
    and its chapters loaded. *)
Definition disk : gmap (list string) Node :=
  list_to_map [
    (["downloads"], Dir);
    (["One"; "downloads"], Dir);
    (["Chapter 5"; "One"; "downloads"], Dir);
    (["Chapter 3.cbz"; "One"; "downloads"], File (Archive []))
  ].

Definition tui_disk : Tui :=
  mkTui (set_chapters five_chapters (set_selected_manga (Some m1) App_init))
        (set_fs (λ _, disk) world0) [].

End Demo.

(** The requests a search over [sources] adds, in order. *)
Definition search_requests (sources : list string) (query : string) : list Request :=
  (λ source, ReqSearch (get_client source) query 1) <$> sources.

(** The concatenation of the per-source results, tagged by source. *)
Definition tagged_results (found : string → list Manga) (sources : list string)
  : list (string * Manga) :=
  flat_map (λ source, (λ manga, (source, manga)) <$> found source) sources.

Definition add_requests (rs : list Request) (w : World) : World :=
  mkWorld (fs w) (state_file w) (state_file_writable w) (requests w ++ rs) (log_lines w) (tasks w).

(** What [search_manga] does once the loop has returned. *)
Definition search_manga_epilogue refill (results : list (string * Manga)) : M Tui () :=
  _set_results refill results;;
  _update_state;;
  _restore_selection_after_search;;
  _log ("Found " +:+ PyStr.str_of_nat (length results) +:+ " results").

(** What [load_chapters] does once the range has been set from the cache. *)
Definition load_chapters_epilogue refill (chs : list Chapter) (cache : option CacheEntry)
  : M Tui () :=
  _sync_downloaded_from_disk;;
  _set_chapters refill chs;;
  match c ← cache; _coerce_int (c_chapter_index c) with
  | Some i => modify_app (set_chapters_index (Some i))
  | None => ret ()
  end;;
  _log ("Loaded " +:+ PyStr.str_of_nat (length chs) +:+ " chapters").

(** No two chapters of the list share an identifier. *)
Definition identifiers_unique (chapters : list Chapter) : Prop :=
  ∀ c c', c ∈ chapters → c' ∈ chapters →
    (ch_id c = ch_id c' ∨ ch_id c = ch_slug c' ∨ ch_slug c = ch_id c' ∨ ch_slug c = ch_slug c') →
    c = c'.

(** The page list [download_chapter] works on: the one supplied when it
    is not empty, else the one the client returns. *)
Definition resolved_pages (web : Web) (client : Client) (chapter : Chapter)
    (pages : option (list string)) : Answer (list string) :=
  match pages with
  | Some (u :: us) => Answered (u :: us)
  | _ => web_chapter_pages web client (ch_id chapter)
  end.

(** The chapter directory and the destination of a page in it. *)
Definition chapter_dir_of (output_dir : Path) (manga_title : string) (chapter : Chapter) : Path :=
  output_dir // sanitize_filename manga_title "_" // sanitize_filename (ch_title chapter) "_".

Definition page_dest (chapter_dir : Path) (page : nat * string) : Path :=
  chapter_dir // (PyStr.zfill3 page.1 +:+ guess_ext_from_url page.2).

Definition page_missing (t : gmap (list string) Node) (chapter_dir : Path)
    (page : nat * string) : Prop :=
  path_exists t (page_dest chapter_dir page) = false.

Definition page_fetch (client : Client) (page : nat * string) : Request :=
  ReqGet client page.2.

Definition is_page_fetch (r : Request) : bool :=
  match r with ReqGet _ _ => true | _ => false end.

(** The site serves the page whole. *)
Definition fetch_succeeds (web : Web) (client : Client) (page : nat * string) : Prop :=
  ∃ resp, web_get web client page.2 = Answered resp ∧
          resp_ok resp = true ∧ resp_broken resp = false.

Definition not_download_error (e : Exn) : Prop := ∀ msg, e ≠ DownloadError msg.

(** The progress task, when one is passed, is a task of the progress display. *)
Definition task_valid (progress : bool) (task_id : option nat) (w : World) : Prop :=
  progress = true → ∀ tid, task_id = Some tid → (tid < length (tasks w))%nat.

(** [download_chapter] from the page list on, lines 32-60. *)
Definition download_chapter_body (web : Web) (client : Client) (chapter : Chapter)
    (manga_dir chapter_dir : Path) (cbz : bool) (pages : option (list string))
    (progress : bool) (task_id : option nat) (log : bool) : M World Path :=
  pages ← match pages with
          | Some (u :: us) => ret (u :: us)
          | _ => chapter_pages web client (ch_id chapter)
          end;
  match pages with
  | [] => raise (DownloadError ("No pages found for " +:+ ch_title chapter))
  | _ =>
      for_each (enumerate 1 pages)
        (download_page web client chapter chapter_dir (length pages) progress task_id log);;
      when cbz (_make_cbz chapter_dir
                  (manga_dir // (sanitize_filename (ch_title chapter) "_" +:+ ".cbz")));;
      ret chapter_dir
  end.

(** The line [pages = pages or client.chapter_pages(chapter.id)]. *)
Definition resolve_pages (web : Web) (client : Client) (chapter : Chapter)
    (pages : option (list string)) : M World (list string) :=
  match pages with
  | Some (u :: us) => ret (u :: us)
  | _ => chapter_pages web client (ch_id chapter)
  end.

(** The requests made to resolve the page list. *)
Definition pages_requests (client : Client) (chapter : Chapter) (pages : option (list string))
  : list Request :=
  match pages with
  | Some (_ :: _) => []
  | _ => [ReqChapterPages client (ch_id chapter)]
  end.

(** Every site call fails. *)
Definition web_down : Web :=
  mkWeb (λ _ _ _, Failed "ConnectionError") (λ _ _, Failed "ConnectionError")
        (λ _ _, Failed "ConnectionError") (λ _ _, Failed "ConnectionError").

(** The set [_sync_downloaded_from_disk] stores for the selected manga. *)
Definition reconciled_set (t : Tui) (m : Manga) : gset string :=
  default ∅ (downloaded_chapters (app (_sync_downloaded_from_disk t).2)
               !! (source_name (app t), m_slug m)).

(** Reconciliation marks exactly the chapters on disk: a listed chapter
    has its id and its slug in the set if and only if its directory or
    its archive exists. *)
Definition marks_exactly_present (t : Tui) : Prop :=
  ∀ m c, selected_manga (app t) = Some m → c ∈ chapters (app t) →
    (ch_id c ∈ reconciled_set t m ∧ ch_slug c ∈ reconciled_set t m ↔
     chapter_on_disk (fs (world t))
       (["downloads"] // sanitize_filename (m_title m) "_") c = true).

(** Two chapters with the same id and slug and different titles, the
    first of them on disk. *)
Definition tui_twins : Tui :=
  mkTui (set_chapters [mkChapter "1" "1" None "Chapter 1";
                       mkChapter "1" "1" None "Chapter 1 (v2)"]
           (set_selected_manga (Some Demo.m1) App_init))
        (set_fs (λ _, list_to_map [
                   (["downloads"], Dir);
                   (["One"; "downloads"], Dir);
                   (["Chapter 1"; "One"; "downloads"], Dir)]) Demo.world0)
        [].

Definition is_digit (c : ascii) : bool := PyStr.between 48 57 (PyStr.ord c).

(** The number a string starts with: the value of its leading decimal
    digits, continuing from [acc]. *)
Fixpoint leading_number (acc : N) (s : string) : N :=
  match s with
  | EmptyString => acc
  | String c s' =>
      if is_digit c then leading_number (acc * 10 + (PyStr.ord c - 48)) s' else acc
  end.

(** The bytes [write_chunks] stores for a page the site serves. *)
Definition page_bytes (web : Web) (client : Client) (page : nat * string) : FileData :=
  match web_get web client page.2 with
  | Answered resp =>
      Bytes (String.concat "" (filter (λ c, PyStr.truthy c = true) (resp_chunks resp)))
  | Failed _ => Bytes ""
  end.

(* ================================================================== *)
(** * Properties *)

(** C10. Every source name whose lowercased, stripped form is not exactly
    "mangakatana" is mapped to the kisslove client; no name is rejected. *)
Theorem get_client_defaults_to_kisslove (source : string) :
  PyStr.strip (PyStr.lower source) ≠ "mangakatana" →
  get_client source = KissLoveClient.
Proof.
  intros Hne. unfold get_client.
  case_bool_decide as Heq; [contradiction | reflexivity].
Qed.

(** ** Frame rules of the monad *)

Section Frames.
Context {S : Type}.

Lemma run_bind {A B} (c : M S A) (k : A → M S B) s :
  (c ≫= k) s = match c s with
               | (Return a, s') => k a s'
               | (Raise e, s') => (Raise e, s')
               end.
Proof. reflexivity. Qed.

Lemma keeps_ret {A X} (v : S → X) (a : A) : keeps v (mret a).
Proof. by intros s. Qed.

Lemma keeps_bind {A B X} (v : S → X) (c : M S A) (k : A → M S B) :
  keeps v c → (∀ a, keeps v (k a)) → keeps v (c ≫= k).
Proof.
  intros Hc Hk s. rewrite run_bind. specialize (Hc s).
  destruct (c s) as [[a|e] s']; simpl in *; [by rewrite Hk | done].
Qed.

Lemma keeps_gets {A X} (v : S → X) (f : S → A) : keeps v (gets f).
Proof. by intros s. Qed.

Lemma keeps_get {X} (v : S → X) : keeps v get.
Proof. by intros s. Qed.

Lemma keeps_raise {A X} (v : S → X) e : keeps v (raise (A:=A) e).
Proof. by intros s. Qed.

Lemma keeps_modify {X} (v : S → X) (f : S → S) :
  (∀ s, v (f s) = v s) → keeps v (modify f).
Proof. intros H s. apply H. Qed.

Lemma keeps_try_except {A X} (v : S → X) (c h : M S A) handled :
  keeps v c → keeps v h → keeps v (try_except c handled h).
Proof.
  intros Hc Hh s. unfold try_except. specialize (Hc s).
  destruct (c s) as [[a|e] s']; simpl in *; [done|].
  destruct (handled e); simpl; [by rewrite Hh | done].
Qed.

Lemma keeps_when {X} (v : S → X) b (c : M S unit) : keeps v c → keeps v (when b c).
Proof. intros Hc. destruct b; [done | by intros s]. Qed.

Lemma succeeds_ret {A} (a : A) : succeeds (S:=S) (mret a).
Proof. intros s. by exists a. Qed.

Lemma succeeds_bind {A B} (c : M S A) (k : A → M S B) :
  succeeds c → (∀ a, succeeds (k a)) → succeeds (c ≫= k).
Proof.
  intros Hc Hk s. rewrite run_bind. destruct (Hc s) as [a Ha].
  destruct (c s) as [[a'|e] s']; simpl in *; [apply Hk | done].
Qed.

Lemma succeeds_gets {A} (f : S → A) : succeeds (gets f).
Proof. intros s. by eexists. Qed.

Lemma succeeds_modify (f : S → S) : succeeds (modify f).
Proof. intros s. by eexists. Qed.

Lemma succeeds_when b (c : M S unit) : succeeds c → succeeds (when b c).
Proof. intros Hc. destruct b; [done | intros s; by eexists]. Qed.

Lemma succeeds_unit (c : M S unit) s : succeeds c → (c s).1 = Return tt.
Proof. intros Hc. destruct (Hc s) as [[] ?]. done. Qed.

Lemma run_seq {B} (c : M S unit) (k : unit → M S B) s :
  succeeds c → (c ≫= k) s = k tt (c s).2.
Proof.
  intros Hc. rewrite run_bind. pose proof (succeeds_unit c s Hc) as H.
  destruct (c s) as [[[]|e] s']; simpl in *; [done | discriminate].
Qed.
End Frames.

Section TuiFrames.
Context {X : Type}.

Lemma keeps_in_world_app {A} (f : App → X) (c : M World A) :
  keeps (on_app f) (in_world c).
Proof. intros [a w ws]. unfold in_world. simpl. by destruct (c w). Qed.

Lemma keeps_in_world {A} (g : World → X) (c : M World A) :
  keeps g c → keeps (on_world g) (in_world c).
Proof.
  intros Hc [a w ws]. unfold in_world. simpl. specialize (Hc w).
  by destruct (c w).
Qed.

Lemma keeps_modify_app (f : App → X) (h : App → App) :
  (∀ a, f (h a) = f a) → keeps (on_app f) (modify_app h).
Proof. intros H [a w ws]. apply H. Qed.

Lemma keeps_modify_app_world (g : World → X) (h : App → App) :
  keeps (on_world g) (modify_app h).
Proof. by intros [a w ws]. Qed.

Lemma keeps_modify_workers_app (f : App → X) h :
  keeps (on_app f) (modify_workers h).
Proof. by intros [a w ws]. Qed.

Lemma keeps_modify_workers_world (g : World → X) h :
  keeps (on_world g) (modify_workers h).
Proof. by intros [a w ws]. Qed.

Lemma keeps_the_app {A} (v : Tui → X) (f : App → A) : keeps v (the_app f).
Proof. by intros s. Qed.
End TuiFrames.

Lemma succeeds_in_world {A} (c : M World A) : succeeds c → succeeds (in_world c).
Proof.
  intros Hc [a w ws]. unfold in_world. simpl. destruct (Hc w) as [x Hx].
  exists x. by destruct (c w).
Qed.

Lemma succeeds_the_app {A} (f : App → A) : succeeds (the_app f).
Proof. intros s. by eexists. Qed.

Lemma succeeds_modify_app h : succeeds (modify_app h).
Proof. intros s. by eexists. Qed.

Lemma succeeds_modify_workers h : succeeds (modify_workers h).
Proof. intros s. by eexists. Qed.

Lemma succeeds_try_except_all {S A} (c h : M S A) handled :
  (∀ s e, (c s).1 = Raise e → handled e = true) → succeeds h →
  succeeds (try_except c handled h).
Proof.
  intros Hc Hh s. unfold try_except.
  specialize (Hc s). destruct (c s) as [[a|e] s']; simpl in *; [by eexists|].
  rewrite (Hc e eq_refl). apply Hh.
Qed.

Create HintDb frames discriminated.
#[local] Hint Resolve keeps_ret keeps_gets keeps_get keeps_raise keeps_when keeps_try_except
  keeps_in_world_app keeps_modify_app_world keeps_modify_workers_app
  keeps_modify_workers_world keeps_the_app
  succeeds_ret succeeds_gets succeeds_modify succeeds_when succeeds_in_world
  succeeds_the_app succeeds_modify_app succeeds_modify_workers : frames.

(** One step of a frame proof: split a bind, a match or a conditional,
    or close the goal from the database. *)
Ltac frame_step :=
  match goal with
  | |- keeps _ (_ ≫= _) => apply keeps_bind; [| intros ?]
  | |- succeeds (_ ≫= _) => apply succeeds_bind; [| intros ?]
  | |- keeps _ (modify_app _) => apply keeps_modify_app; intros []; reflexivity
  | |- keeps _ (in_world _) => apply keeps_in_world
  | |- keeps _ (modify _) => apply keeps_modify; intros []; reflexivity
  | |- keeps _ (try_except _ _ _) => apply keeps_try_except
  | |- keeps _ (when _ _) => apply keeps_when
  | |- succeeds (when _ _) => apply succeeds_when
  | |- keeps _ (ret _) => apply keeps_ret
  | |- succeeds (ret _) => apply succeeds_ret
  | |- keeps _ (raise _) => apply keeps_raise
  | |- context [match ?x with _ => _ end] => destruct x
  | |- _ => solve [eauto with frames]
  end.
Ltac frames := repeat frame_step.

Lemma write_log_succeeds m : succeeds (write_log m).
Proof. unfold write_log. frames. Qed.
#[local] Hint Resolve write_log_succeeds : frames.

Lemma _log_succeeds m : succeeds (_log m).
Proof. unfold _log. frames. Qed.
#[local] Hint Resolve _log_succeeds : frames.

Lemma _log_keeps_app {X} (f : App → X) m : keeps (on_app f) (_log m).
Proof. unfold _log. frames. Qed.
#[local] Hint Resolve _log_keeps_app : frames.

Lemma _set_chapters_succeeds refill chs : succeeds (_set_chapters refill chs).
Proof. unfold _set_chapters. frames. Qed.
Lemma _refresh_chapter_list_succeeds refill : succeeds (_refresh_chapter_list refill).
Proof. unfold _refresh_chapter_list. frames. Qed.
Lemma _save_manga_cache_succeeds : succeeds _save_manga_cache.
Proof. unfold _save_manga_cache. frames. Qed.
Lemma write_state_file_raises_OSError payload w e :
  (write_state_file payload w).1 = Raise e → is_OSError e = true.
Proof.
  unfold write_state_file. rewrite run_bind. simpl.
  destruct (state_file_writable w); simpl; [discriminate | by intros [= <-]].
Qed.
Lemma _save_session_succeeds : succeeds _save_session.
Proof.
  unfold _save_session. frames. apply succeeds_try_except_all; [|frames].
  intros [a' w ws] e. unfold in_world. simpl.
  match goal with |- context [write_state_file ?p w] =>
    pose proof (write_state_file_raises_OSError p w e) as H;
    destruct (write_state_file p w) as [[]]; simpl in *; auto
  end.
Qed.

#[local] Hint Resolve _set_chapters_succeeds _refresh_chapter_list_succeeds
  _save_manga_cache_succeeds _save_session_succeeds : frames.

Lemma _save_state_succeeds : succeeds _save_state.
Proof. unfold _save_state. frames. Qed.
#[local] Hint Resolve _save_state_succeeds : frames.

Lemma _update_range_from_click_succeeds refill index :
  succeeds (_update_range_from_click refill index).
Proof. unfold _update_range_from_click, _update_state. frames. Qed.


Lemma _update_range_from_click_run refill index t :
  let r := _update_range_from_click refill index t in
  r.1 = Return tt ∧
  range_of (app r.2) =
    match range_start (app t), range_end (app t) with
    | None, e => (Some (index + 1), e)
    | Some s, None => (Some s, Some (index + 1))
    | Some _, Some _ => (Some (index + 1), None)
    end.
Proof.
  split; [apply succeeds_unit, _update_range_from_click_succeeds|].
  unfold _update_range_from_click. rewrite run_bind. simpl.
  rewrite run_seq by frames.
  assert (keeps (on_app range_of)
            (_refresh_chapter_list refill;; _save_manga_cache;; _update_state)) as Hk.
  { unfold _refresh_chapter_list, _set_chapters, _save_manga_cache, _update_state,
      _save_state, _save_session. frames. }
  unfold on_app in Hk. rewrite Hk. clear Hk.
  destruct t as [a w ws]. simpl.
  destruct (range_start a) eqn:Hs, (range_end a) eqn:He; simpl; unfold range_of; simpl;
    rewrite ?Hs, ?He; done.
Qed.

(** ** Range resolution *)

Lemma int_or_default x d : x ≠ Some 0 → int_or x d = default d x.
Proof. destruct x as [v|]; simpl; [|done]. intros H. destruct (Z.eqb_spec v 0); congruence. Qed.

(** [_select_range] resolves within the list whatever the inputs. *)
Lemma _select_range_bounds_ok (chapters : list Chapter) (start end_ : option Z) :
  chapters ≠ [] →
  ∃ lo hi, _select_range_bounds chapters start end_ = Some (lo, hi) ∧
           1 ≤ lo ∧ lo ≤ hi ∧ hi ≤ Z.of_nat (length chapters).
Proof.
  intros Hne. destruct chapters as [|c cs]; [done|].
  unfold _select_range_bounds.
  set (len := Z.of_nat (length (c :: cs))).
  assert (1 ≤ len) by (unfold len; simpl; lia).
  set (s := Z.max 1 (Z.min (int_or start 1) len)).
  set (e := Z.max 1 (Z.min (int_or end_ len) len)).
  assert (1 ≤ s ≤ len) by (unfold s; lia).
  assert (1 ≤ e ≤ len) by (unfold e; lia).
  destruct (Z.ltb_spec e s); eexists _, _; (split; [reflexivity | lia]).
Qed.

(** [_select_range] computes the resolution of the specification, an
    explicit 0 for the end apart (it is falsy, hence read as unset). *)
Lemma _select_range_bounds_spec (chapters : list Chapter) (start end_ : option Z) :
  chapters ≠ [] → end_ ≠ Some 0 →
  _select_range_bounds chapters start end_ =
    Some (resolveSelection (Z.of_nat (length chapters)) start end_).
Proof.
  intros Hne He. destruct chapters as [|c cs]; [done|].
  unfold _select_range_bounds, resolveSelection, clamp.
  rewrite (int_or_default end_) by done.
  destruct start as [v|]; simpl int_or; simpl default; [|done].
  destruct (Z.eqb_spec v 0) as [->|]; [|done].
  replace (Z.max 1 (Z.min 0 (Z.of_nat (length (c :: cs))))) with 1 by lia.
  replace (Z.max 1 (Z.min 1 (Z.of_nat (length (c :: cs))))) with 1 by (simpl length; lia).
  done.
Qed.

(** [download_range] stays within the list when the stored bounds do. *)
Lemma download_range_bounds_in_range (chapters : list Chapter) (rs re : option Z) :
  chapters ≠ [] →
  (∀ v, rs = Some v → 1 ≤ v ≤ Z.of_nat (length chapters)) →
  (∀ v, re = Some v → 1 ≤ v ≤ Z.of_nat (length chapters)) →
  download_range_bounds chapters rs re = resolveSelection (Z.of_nat (length chapters)) rs re.
Proof.
  intros Hne Hs He. unfold download_range_bounds, resolveSelection, clamp.
  assert (1 ≤ Z.of_nat (length chapters)) by (destruct chapters; [done | simpl; lia]).
  assert (int_or rs 1 = clamp 1 (Z.of_nat (length chapters)) (default 1 rs)) as ->.
  { unfold clamp. destruct rs as [v|]; simpl; [|lia].
    specialize (Hs v eq_refl). destruct (Z.eqb_spec v 0); lia. }
  assert (int_or re (Z.of_nat (length chapters))
          = clamp 1 (Z.of_nat (length chapters)) (default (Z.of_nat (length chapters)) re)) as ->.
  { unfold clamp. destruct re as [v|]; simpl; [|lia].
    specialize (He v eq_refl). destruct (Z.eqb_spec v 0); lia. }
  done.
Qed.

(** C2. With five chapters loaded and the bounds 7 and 9 stored for the
    context, [download_range] resolves to (7, 9), outside [1, 5], and
    selects no chapter, where [_select_range] clamps to (5, 5). *)
Theorem download_range_bounds_not_clamped :
  download_range_bounds Demo.five_chapters (Some 7) (Some 9) = (7, 9) ∧
  py_slice Demo.five_chapters (7 - 1) 9 = [] ∧
  _select_range_bounds Demo.five_chapters (Some 7) (Some 9) = Some (5, 5) ∧
  resolveSelection 5 (Some 7) (Some 9) = (5, 5).
Proof. repeat split. Qed.

(** ** The click cycle *)

(** C3. A click on the chapter at list index [index] (position
    [index + 1]) sets the start when it is unset, else the end when it is
    unset, else resets the start and clears the end; from a cleared range
    three clicks give (i1, unset), (i1, i2), (i3, unset). *)
Theorem click_advance_three_state_cycle refill (t : Tui) (index : Z) :
  let r := _update_range_from_click refill index t in
  r.1 = Return () ∧
  range_of (app r.2) =
    match range_start (app t), range_end (app t) with
    | None, e => (Some (index + 1), e)
    | Some s, None => (Some s, Some (index + 1))
    | Some _, Some _ => (Some (index + 1), None)
    end ∧
  ∀ i2 i3,
    range_of (app t) = (None, None) →
    let r2 := _update_range_from_click refill i2 r.2 in
    let r3 := _update_range_from_click refill i3 r2.2 in
    range_of (app r.2) = (Some (index + 1), None) ∧
    range_of (app r2.2) = (Some (index + 1), Some (i2 + 1)) ∧
    range_of (app r3.2) = (Some (i3 + 1), None).
Proof.
  intros r.
  destruct (_update_range_from_click_run refill index t) as [Hr Hrange].
  fold r in Hr, Hrange. split; [done|]. split; [done|].
  intros i2 i3 Hclear r2 r3.
  injection Hclear as Hs He. rewrite Hs, He in Hrange.
  destruct (_update_range_from_click_run refill i2 r.2) as [_ H2]. fold r2 in H2.
  injection Hrange as Hs1 He1. rewrite Hs1, He1 in H2.
  destruct (_update_range_from_click_run refill i3 r2.2) as [_ H3]. fold r3 in H3.
  injection H2 as Hs2 He2. rewrite Hs2, He2 in H3.
  unfold range_of. by rewrite Hs1, He1, Hs2, He2.
Qed.

Lemma click_advance_three_state_cycle_witness :
  range_of (app Demo.tui0) = (None, None) ∧
  let r := _update_range_from_click Demo.refill 4 Demo.tui0 in
  let r2 := _update_range_from_click Demo.refill 8 r.2 in
  let r3 := _update_range_from_click Demo.refill 2 r2.2 in
  range_of (app r.2) = (Some 5, None) ∧
  range_of (app r2.2) = (Some 5, Some 9) ∧
  range_of (app r3.2) = (Some 3, None).
Proof.
  split; [reflexivity|].
  apply (click_advance_three_state_cycle Demo.refill Demo.tui0 4). reflexivity.
Defined.

(** ** The session file *)

(** Unfolding the monad's primitives in a goal that runs a computation. *)
Ltac run_monad :=
  cbv beta iota zeta delta
    [mbind M_bind mret M_ret bind ret get gets modify raise the_app modify_app
     modify_workers in_world try_except of_answer when write_log outcome_of];
  simpl.

Lemma omap_str_or_none (l : list string) : omap str_or_none (JStr <$> l) = l.
Proof. induction l as [|x l IH]; [done|]. simpl. by f_equal. Qed.

Lemma str_or_none_json_of_str (x : option string) : str_or_none (json_of_str x) = x.
Proof. by destruct x. Qed.

(** What [_save_session] leaves in a writable session file. *)
Lemma _save_session_run (t : Tui) :
  state_file_writable (world t) = true →
  let mode := if PyStr.truthy (theme (app t)) && PyStr.contains "dark" (theme (app t))
              then "dark" else "light" in
  _save_session t =
    (Return (),
     mkTui (set_theme_mode mode (app t))
           (set_state_file (SF_json (session_payload (set_theme_mode mode (app t)))) (world t))
           (workers t)).
Proof.
  intros Hw mode. destruct t as [a w ws]. simpl in *.
  unfold _save_session, write_state_file. run_monad. by rewrite Hw.
Qed.

(** A session written by [_save_session] and read back by [_load_session]
    at the next start gives the same query, selection, sources and theme. *)
Lemma session_round_trip (t : Tui) :
  state_file_writable (world t) = true →
  let saved := (_save_session t).2 in
  let loaded := _load_session (mkTui App_init (world saved) []) in
  loaded.1 = Return () ∧
  last_query (app loaded.2) = last_query (app t) ∧
  last_selected_source (app loaded.2) = selected_manga_source (app t) ∧
  last_selected_slug (app loaded.2) = m_slug <$> selected_manga (app t) ∧
  last_selected_title (app loaded.2) = m_title <$> selected_manga (app t) ∧
  selected_sources (app loaded.2) = selected_sources (app t) ∧
  theme_mode (app loaded.2) = theme_mode (app saved) ∧
  theme_name (app loaded.2) =
    (if PyStr.truthy (theme (app t)) then Some (theme (app t)) else None).
Proof.
  intros Hw. simpl. rewrite (_save_session_run t Hw). simpl.
  destruct t as [a w ws]. simpl in *.
  unfold _load_session, read_state_file. run_monad.
  unfold dict_get. simpl. rewrite !str_or_none_json_of_str, omap_str_or_none.
  destruct (PyStr.truthy (theme a)) eqn:Ht, (PyStr.contains "dark" (theme a)) eqn:Hd;
    simpl; rewrite ?Ht; done.
Qed.

(** A session file that is missing, unreadable or not JSON leaves the
    defaults in place. *)
Lemma _load_session_tolerates (t : Tui) :
  (state_file (world t) = SF_missing ∨ state_file (world t) = SF_unreadable ∨
   ∃ text, state_file (world t) = SF_not_json text) →
  _load_session t = (Return (), t).
Proof.
  destruct t as [a w ws]. simpl.
  unfold _load_session, read_state_file. run_monad.
  intros [H | [H | [text H]]]; rewrite H; simpl; rewrite ?H; simpl; done.
Qed.

(** C8. A session file holding the JSON document [[]] makes
    [_load_session] raise AttributeError, and one whose bytes are not
    UTF-8 makes it raise UnicodeDecodeError: neither is caught. *)
Theorem _load_session_raises_on_malformed :
  (_load_session
     (mkTui App_init (set_state_file (SF_json (JList [])) Demo.world0) [])).1
    = Raise AttributeError ∧
  (_load_session
     (mkTui App_init (set_state_file SF_not_utf8 Demo.world0) [])).1
    = Raise UnicodeDecodeError.
Proof. split; reflexivity. Qed.

(** ** Aggregated search *)

Lemma add_requests_nil w : add_requests [] w = w.
Proof. destruct w. unfold add_requests. simpl. by rewrite app_nil_r. Qed.

Lemma add_requests_cons r rs w : add_requests rs (add_request r w) = add_requests (r :: rs) w.
Proof. unfold add_requests, add_request. simpl. by rewrite <- app_assoc. Qed.

(** When every source answers, the loop returns the results so far
    followed by each source's results in selection order. *)
Lemma search_sources_answered web sources query results t found :
  (∀ source, source ∈ sources →
     web_search web (get_client source) query 1 = Answered (found source)) →
  search_sources web sources query results t =
    (Return (results ++ tagged_results found sources),
     mkTui (app t) (add_requests (search_requests sources query) (world t)) (workers t)).
Proof.
  revert results t. induction sources as [|source sources IH]; intros results t Hall.
  - simpl. rewrite add_requests_nil, app_nil_r. by destruct t.
  - simpl. rewrite run_bind. unfold client_search. run_monad.
    rewrite (Hall source) by apply list_elem_of_here.
    rewrite IH by (intros s Hs; apply Hall; by apply list_elem_of_further).
    simpl. rewrite add_requests_cons. rewrite <- app_assoc. done.
Qed.

(** When a source fails after the ones before it answered, the loop
    raises its error and the later sources are not asked. *)
Lemma search_sources_failed web before source after query results t found exc :
  (∀ s, s ∈ before → web_search web (get_client s) query 1 = Answered (found s)) →
  web_search web (get_client source) query 1 = Failed exc →
  search_sources web (before ++ source :: after) query results t =
    (Raise (SiteError exc),
     mkTui (app t) (add_requests (search_requests (before ++ [source]) query) (world t))
           (workers t)).
Proof.
  revert results t. induction before as [|s before IH]; intros results t Hall Hfail.
  - simpl. rewrite run_bind. unfold client_search. run_monad. by rewrite Hfail.
  - simpl. rewrite run_bind. unfold client_search. run_monad.
    rewrite (Hall s) by apply list_elem_of_here.
    rewrite IH; [|intros s' Hs'; apply Hall; by apply list_elem_of_further|done].
    simpl. by rewrite add_requests_cons.
Qed.

Lemma search_manga_epilogue_succeeds refill results :
  succeeds (search_manga_epilogue refill results).
Proof.
  unfold search_manga_epilogue, _set_results, _update_state,
    _restore_selection_after_search, load_chapters, _update_status.
  frames.
Qed.

Lemma search_manga_epilogue_keeps_mangas refill results :
  keeps (on_app mangas) (search_manga_epilogue refill results).
Proof.
  unfold search_manga_epilogue, _set_results, _update_state, _save_state, _save_session,
    _restore_selection_after_search, load_chapters, _update_status.
  frames.
Qed.

Lemma search_manga_epilogue_keeps_requests refill results :
  keeps (on_world requests) (search_manga_epilogue refill results).
Proof.
  unfold search_manga_epilogue, _set_results, _update_state, _save_state, _save_session,
    _restore_selection_after_search, load_chapters, _update_status, _log, write_log,
    write_state_file.
  frames.
Qed.

Lemma search_manga_unfold web refill query t :
  selected_sources (app t) ≠ [] →
  search_manga web refill query t =
    (results ← search_sources web (selected_sources (app t)) query [];
     modify_app (set_mangas results);;
     search_manga_epilogue refill results)
      (_log ("Searching: " +:+ query) t).2.
Proof.
  intros Hne. unfold search_manga. rewrite run_seq by frames.
  rewrite run_bind. destruct t as [a w ws]. simpl in *.
  by destruct (selected_sources a).
Qed.

(** C5. When every selected source answers, the search asks the sources
    in selection order with the same query and the result list is the
    concatenation of their results, grouped by source in that order. *)
Theorem search_manga_concatenates web refill (query : string) (t : Tui)
    (found : string → list Manga) :
  (∀ source, source ∈ selected_sources (app t) →
     web_search web (get_client source) query 1 = Answered (found source)) →
  let sources := selected_sources (app t) in
  (∀ results,
     (search_sources web sources query results t).1
       = Return (results ++ tagged_results found sources)) ∧
  (sources ≠ [] →
   let r := search_manga web refill query t in
   r.1 = Return () ∧
   mangas (app r.2) = tagged_results found sources ∧
   requests (world r.2) = requests (world t) ++ search_requests sources query).
Proof.
  intros Hall sources. split.
  - intros results. by rewrite (search_sources_answered _ _ _ _ _ found).
  - intros Hne r. subst r. rewrite search_manga_unfold by done.
    set (t1 := (_log ("Searching: " +:+ query) t).2).
    assert (app t1 = app t) as Happ by (by destruct t).
    assert (requests (world t1) = requests (world t)) as Hreq by (by destruct t).
    rewrite run_bind.
    rewrite (search_sources_answered _ _ _ _ _ found) by done.
    rewrite run_seq by frames. simpl.
    split; [apply succeeds_unit, search_manga_epilogue_succeeds|].
    split.
    + pose proof (search_manga_epilogue_keeps_mangas refill) as Hk.
      unfold keeps, on_app in Hk. by rewrite Hk.
    + pose proof (search_manga_epilogue_keeps_requests refill) as Hk.
      unfold keeps, on_world in Hk. rewrite Hk. simpl. done.
Qed.

Lemma search_manga_concatenates_witness :
  (∀ source, source ∈ selected_sources (app Demo.tui0) →
     web_search Demo.web (get_client source) "q" 1
       = Answered (match get_client source with
                   | KissLoveClient => [Demo.m1]
                   | MangaKatanaClient => [Demo.m2]
                   end)) ∧
  mangas (app (search_manga Demo.web Demo.refill "q" Demo.tui0).2)
    = [("kisslove", Demo.m1); ("mangakatana", Demo.m2)].
Proof.
  assert (∀ source, source ∈ selected_sources (app Demo.tui0) →
     web_search Demo.web (get_client source) "q" 1
       = Answered (match get_client source with
                   | KissLoveClient => [Demo.m1]
                   | MangaKatanaClient => [Demo.m2]
                   end)) as H.
  { intros source _. simpl. by destruct (get_client source). }
  split; [exact H|].
  refine (proj1 (proj2 (proj2 (search_manga_concatenates Demo.web Demo.refill "q" Demo.tui0
    (λ source, match get_client source with
               | KissLoveClient => [Demo.m1]
               | MangaKatanaClient => [Demo.m2]
               end) H) _))).
  discriminate.
Defined.

(** C1, as the code has it. A failure of one source's search ends the
    whole search with that error: the result list is left as it was and
    the sources after the failing one are not asked. When every source
    answers, the result list holds every source's full results. *)
Theorem search_manga_propagates_failure web refill (query : string) (t : Tui)
    (found : string → list Manga) :
  (∀ before source after exc,
     selected_sources (app t) = before ++ source :: after →
     (∀ s, s ∈ before → web_search web (get_client s) query 1 = Answered (found s)) →
     web_search web (get_client source) query 1 = Failed exc →
     let r := search_manga web refill query t in
     r.1 = Raise (SiteError exc) ∧
     mangas (app r.2) = mangas (app t) ∧
     requests (world r.2)
       = requests (world t) ++ search_requests (before ++ [source]) query) ∧
  (selected_sources (app t) ≠ [] →
   (∀ s, s ∈ selected_sources (app t) →
      web_search web (get_client s) query 1 = Answered (found s)) →
   let r := search_manga web refill query t in
   r.1 = Return () ∧
   ∀ s manga, s ∈ selected_sources (app t) → manga ∈ found s → (s, manga) ∈ mangas (app r.2)).
Proof.
  split.
  - intros before source after exc Hsel Hbefore Hfail r. subst r.
    rewrite search_manga_unfold by (rewrite Hsel; by destruct before).
    set (t1 := (_log ("Searching: " +:+ query) t).2).
    assert (app t1 = app t) as Happ by (by destruct t).
    assert (requests (world t1) = requests (world t)) as Hreq by (by destruct t).
    rewrite run_bind. rewrite Hsel.
    rewrite (search_sources_failed _ _ _ _ _ _ _ found exc) by done.
    simpl. rewrite ?Happ, ?Hreq. done.
  - intros Hne Hall r. subst r. rewrite search_manga_unfold by done.
    set (t1 := (_log ("Searching: " +:+ query) t).2).
    assert (app t1 = app t) as Happ by (by destruct t).
    rewrite run_bind.
    rewrite (search_sources_answered _ _ _ _ _ found) by done.
    rewrite run_seq by frames. simpl.
    split; [apply succeeds_unit, search_manga_epilogue_succeeds|].
    intros s manga Hs Hm.
    pose proof (search_manga_epilogue_keeps_mangas refill) as Hk.
    unfold keeps, on_app in Hk. rewrite Hk. simpl.
    unfold tagged_results. apply list_elem_of_In, in_flat_map.
    exists s. split; [by apply list_elem_of_In|].
    apply list_elem_of_In, list_elem_of_fmap. by exists manga.
Qed.

(** C1, as stated, fails: with the second of two selected sources down,
    the search raises and the first source's results are not shown. *)
Lemma search_manga_failure_aborts :
  ¬ search_contains_failures Demo.web_failing Demo.refill "q" Demo.tui0.
Proof. intros [H _]. vm_compute in H. discriminate. Qed.

Lemma search_manga_propagates_failure_witness :
  selected_sources (app Demo.tui0) = ["kisslove"] ++ "mangakatana" :: [] ∧
  web_search Demo.web_failing (get_client "kisslove") "q" 1 = Answered [Demo.m1] ∧
  web_search Demo.web_failing (get_client "mangakatana") "q" 1 = Failed "ConnectionError" ∧
  let r := search_manga Demo.web_failing Demo.refill "q" Demo.tui0 in
  r.1 = Raise (SiteError "ConnectionError") ∧
  mangas (app r.2) = [] ∧
  requests (world r.2)
    = [ReqSearch KissLoveClient "q" 1; ReqSearch MangaKatanaClient "q" 1].
Proof.
  split; [reflexivity|]. split; [reflexivity|]. split; [reflexivity|].
  apply (proj1 (search_manga_propagates_failure Demo.web_failing Demo.refill "q" Demo.tui0
                  (λ _, [Demo.m1]))
           ["kisslove"] "mangakatana" [] "ConnectionError").
  - reflexivity.
  - intros s Hs. apply list_elem_of_singleton in Hs. subst s. reflexivity.
  - reflexivity.
Defined.

(** ** Loading chapters *)

Lemma load_chapters_epilogue_succeeds refill chs cache :
  succeeds (load_chapters_epilogue refill chs cache).
Proof. unfold load_chapters_epilogue, _sync_downloaded_from_disk, _set_chapters. frames. Qed.

Lemma load_chapters_epilogue_keeps refill chs cache :
  keeps (on_app (λ a, (chapters a, range_of a))) (load_chapters_epilogue refill chs cache).
Proof. unfold load_chapters_epilogue, _sync_downloaded_from_disk, _set_chapters. frames. Qed.

Lemma load_chapters_apply_unfold refill slug chs t :
  let cache := manga_cache (app t) !! (source_name (app t), slug) in
  let bounds := match cache with
                | Some c => (c_range_start c, c_range_end c)
                | None => (None, None)
                end in
  load_chapters_apply refill slug chs t =
    load_chapters_epilogue refill chs cache
      (mkTui (set_range_end bounds.2 (set_range_start bounds.1 (set_chapters chs (app t))))
             (world t) (workers t)).
Proof.
  destruct t as [a w ws]. simpl.
  unfold load_chapters_apply. rewrite run_seq by frames. rewrite run_bind. simpl.
  destruct (manga_cache a !! (source_name a, slug)) as [[[?|] [?|] ?]|];
    by rewrite run_seq by frames.
Qed.

Lemma load_chapters_apply_run refill slug chs t :
  let r := load_chapters_apply refill slug chs t in
  r.1 = Return () ∧
  chapters (app r.2) = chs ∧
  range_of (app r.2) =
    match manga_cache (app t) !! (source_name (app t), slug) with
    | Some c => (c_range_start c, c_range_end c)
    | None => (None, None)
    end.
Proof.
  intros r. subst r. rewrite load_chapters_apply_unfold. cbv zeta.
  set (bounds := match manga_cache (app t) !! (source_name (app t), slug) with
                 | Some c => (c_range_start c, c_range_end c)
                 | None => (None, None)
                 end).
  match goal with |- context [load_chapters_epilogue refill chs ?cache ?s] =>
    set (s0 := s); set (c0 := cache) end.
  split; [apply succeeds_unit, load_chapters_epilogue_succeeds|].
  pose proof (load_chapters_epilogue_keeps refill chs c0 s0) as Hk.
  unfold on_app in Hk. rewrite pair_equal_spec in Hk. destruct Hk as [Hk1 Hk2].
  rewrite Hk1, Hk2. subst s0. unfold range_of. simpl. by destruct bounds.
Qed.

(** C4, as the code has it. When a chapter-list load finishes, its
    chapters are made the chapter list whatever manga is selected by
    then, and the range is set from the cache entry of the current
    source and the loaded slug, or cleared when there is none. *)
Theorem load_chapters_applies_unconditionally refill (k : nat) (t : Tui)
    (slug : string) (chs : list Chapter) :
  workers t !! k = Some (W_fetched slug chs) →
  let r := worker_finish refill k t in
  r.1 = Return () ∧
  workers r.2 !! k = Some W_finished ∧
  chapters (app r.2) = chs ∧
  range_of (app r.2) =
    match manga_cache (app t) !! (source_name (app t), slug) with
    | Some c => (c_range_start c, c_range_end c)
    | None => (None, None)
    end.
Proof.
  intros Hk r. subst r. unfold worker_finish.
  rewrite run_bind. simpl. rewrite Hk. rewrite run_bind.
  unfold outcome_of. simpl.
  destruct (load_chapters_apply_run refill slug chs t) as (Hr & Hch & Hrange).
  simpl in Hr. rewrite Hr. simpl.
  split; [done|]. split; [|done].
  assert (workers (load_chapters_apply refill slug chs t).2 = workers t) as ->.
  { rewrite load_chapters_apply_unfold.
    assert (∀ cache, keeps workers (load_chapters_epilogue refill chs cache)) as Hw.
    { intros cache.
      unfold load_chapters_epilogue, _sync_downloaded_from_disk, _set_chapters, _log,
        modify_app, in_world, the_app.
      repeat first [ apply keeps_bind; [|intros ?] | apply keeps_modify; intros []; reflexivity
                   | apply keeps_gets | apply keeps_ret
                   | match goal with |- context [match ?x with _ => _ end] => destruct x end
                   | (intros [? ? ?]; simpl; by destruct (write_log _ _)) ]. }
    by rewrite Hw. }
  apply list_lookup_insert_eq. by eapply lookup_lt_Some.
Qed.

Lemma load_chapters_applies_unconditionally_witness :
  workers Demo.tui_stale !! 0%nat = Some (W_fetched "/manga/one" Demo.five_chapters) ∧
  m_slug <$> selected_manga (app Demo.tui_stale) = Some "/manga/two" ∧
  chapters (app (worker_finish Demo.refill 0 Demo.tui_stale).2) = Demo.five_chapters.
Proof.
  split; [reflexivity|]. split; [reflexivity|].
  apply (load_chapters_applies_unconditionally Demo.refill 0 Demo.tui_stale
           "/manga/one" Demo.five_chapters).
  reflexivity.
Defined.

(** C4, as stated, fails: the load of the first manga finishes after the
    second was selected and ranged, and replaces the second's chapter
    list and clears its range. *)
Lemma stale_load_overwrites :
  ¬ stale_load_discarded Demo.refill 0 Demo.tui_stale.
Proof.
  intros H.
  assert (workers Demo.tui_stale !! 0%nat = Some (W_fetched "/manga/one" Demo.five_chapters))
    as Hworker by (vm_compute; reflexivity).
  assert (m_slug <$> selected_manga (app Demo.tui_stale) ≠ Some "/manga/one") as Hother
    by (vm_compute; discriminate).
  destruct (H "/manga/one" Demo.five_chapters Hworker Hother) as [Hch _].
  vm_compute in Hch. discriminate.
Qed.

(** ** The file system *)

Lemma dirs_ok_cons t name parent :
  dirs_ok t (name :: parent) = is_dir (t !! (name :: parent)) && dirs_ok t parent.
Proof. reflexivity. Qed.

Lemma is_dir_true (n : option Node) : is_dir n = true ↔ n = Some Dir.
Proof. destruct n as [[|d]|]; simpl; split; congruence. Qed.

Lemma dirs_ok_resolve t p : dirs_ok t p = true → resolve t p = Some Dir.
Proof.
  destruct p as [|name parent]; [done|]. rewrite dirs_ok_cons.
  intros [Hd Hp]%andb_true_iff. simpl. rewrite Hp. by apply is_dir_true.
Qed.

Lemma resolve_child t p name :
  dirs_ok t p = true → resolve t (p // name) = t !! (p // name).
Proof. intros H. unfold path_join. simpl. by rewrite H. Qed.

(** A path that exists has an existing parent directory. *)
Lemma path_exists_parent t p name :
  path_exists t (p // name) = true → dirs_ok t p = true.
Proof.
  unfold path_exists, path_join. simpl. destruct (dirs_ok t p); [done|].
  intros H. apply bool_decide_eq_true in H. by destruct H.
Qed.

Lemma path_exists_dirs_ok t p : dirs_ok t p = true → path_exists t p = true.
Proof. intros H. unfold path_exists. rewrite (dirs_ok_resolve _ _ H). by apply bool_decide_eq_true. Qed.

(** ** Reconciliation with the disk *)

Lemma chapter_on_disk_manga_dir t manga_dir c :
  chapter_on_disk t manga_dir c = true → path_exists t manga_dir = true.
Proof.
  unfold chapter_on_disk. intros [H|H]%orb_true_iff;
    apply path_exists_dirs_ok; by eapply path_exists_parent.
Qed.

Lemma scan_downloaded_from t manga_dir chapters (acc : gset string) x :
  x ∈ foldl (λ downloaded chapter,
               if chapter_on_disk t manga_dir chapter
               then downloaded ∪ {[ch_id chapter]} ∪ {[ch_slug chapter]}
               else downloaded) acc chapters
  ↔ x ∈ acc ∨ ∃ c, c ∈ chapters ∧ chapter_on_disk t manga_dir c = true ∧
                   (x = ch_id c ∨ x = ch_slug c).
Proof.
  revert acc. induction chapters as [|c chapters IH]; intros acc; simpl.
  - split; [by left | intros [H | (c & Hc & _)]; [done | by apply elem_of_nil in Hc]].
  - rewrite IH. destruct (chapter_on_disk t manga_dir c) eqn:Hc.
    + rewrite !elem_of_union, !elem_of_singleton. split.
      * intros [[[H|H]|H] | (c' & Hin & Hd & Hx)]; [by left | | |].
        -- right. exists c. split; [apply list_elem_of_here | auto].
        -- right. exists c. split; [apply list_elem_of_here | auto].
        -- right. exists c'. split; [by apply list_elem_of_further | auto].
      * intros [H | (c' & Hin & Hd & Hx)]; [by left; left; left|].
        apply elem_of_cons in Hin as [-> | Hin].
        -- left. destruct Hx; [left; by right | by right].
        -- right. by exists c'.
    + split.
      * intros [H | (c' & Hin & Hd & Hx)]; [by left|].
        right. exists c'. split; [by apply list_elem_of_further | auto].
      * intros [H | (c' & Hin & Hd & Hx)]; [by left|].
        apply elem_of_cons in Hin as [-> | Hin]; [congruence|].
        right. by exists c'.
Qed.

(** The set the scan builds holds exactly the identifiers of the
    chapters found on disk. *)
Lemma scan_downloaded_spec t manga_dir chapters x :
  x ∈ scan_downloaded t manga_dir chapters
  ↔ ∃ c, c ∈ chapters ∧ chapter_on_disk t manga_dir c = true ∧
         (x = ch_id c ∨ x = ch_slug c).
Proof.
  unfold scan_downloaded. rewrite scan_downloaded_from. split; [|by right].
  intros [H|H]; [by apply not_elem_of_empty in H | done].
Qed.

Lemma scan_downloaded_no_dir t manga_dir chapters :
  path_exists t manga_dir = false → scan_downloaded t manga_dir chapters = ∅.
Proof.
  intros Hno. apply set_eq. intros x. rewrite scan_downloaded_spec. split.
  - intros (c & _ & Hc & _). apply chapter_on_disk_manga_dir in Hc. congruence.
  - intros H. by apply not_elem_of_empty in H.
Qed.

Lemma _sync_downloaded_from_disk_run (t : Tui) (m : Manga) :
  selected_manga (app t) = Some m →
  _sync_downloaded_from_disk t =
    (Return (),
     mkTui (set_downloaded_chapters
              (<[(source_name (app t), m_slug m) :=
                   scan_downloaded (fs (world t))
                     (["downloads"] // sanitize_filename (m_title m) "_") (chapters (app t))]>
                 (downloaded_chapters (app t))) (app t))
           (world t) (workers t)).
Proof.
  intros Hm. destruct t as [a w ws]. simpl in *.
  unfold _sync_downloaded_from_disk. run_monad.
  destruct (selected_manga a) as [m'|] eqn:Hsel; [|done]. injection Hm as ->.
  destruct (path_exists (fs w) _) eqn:He; simpl; rewrite ?Hsel; [done|].
  by rewrite scan_downloaded_no_dir.
Qed.

Lemma reconciled_set_eq (t : Tui) (m : Manga) :
  selected_manga (app t) = Some m →
  reconciled_set t m =
  scan_downloaded (fs (world t)) (["downloads"] // sanitize_filename (m_title m) "_")
    (chapters (app t)).
Proof.
  intros Hm. unfold reconciled_set.
  rewrite (_sync_downloaded_from_disk_run t m Hm). simpl.
  by rewrite lookup_insert_eq.
Qed.

(** C6, as the code has it. For the selected manga, reconciliation stores
    under the context the set that holds an identifier exactly when it is
    the id or the slug of a listed chapter whose sanitized directory or
    .cbz archive exists under the sanitized title; the id and the slug of
    every such chapter are in it; a chapter has both its identifiers in
    it exactly when each of them is an identifier of some chapter on
    disk; the disk is left as it was, and running it again gives the
    same state. *)
Theorem sync_downloaded_reconciles (t : Tui) (m : Manga) :
  selected_manga (app t) = Some m →
  let key := (source_name (app t), m_slug m) in
  let manga_dir := ["downloads"] // sanitize_filename (m_title m) "_" in
  let present := chapter_on_disk (fs (world t)) manga_dir in
  let on_disk_as x := ∃ c, c ∈ chapters (app t) ∧ present c = true ∧
                          (x = ch_id c ∨ x = ch_slug c) in
  let r := _sync_downloaded_from_disk t in
  r.1 = Return () ∧
  world r.2 = world t ∧
  (∃ downloaded : gset string,
     downloaded_chapters (app r.2) !! key = Some downloaded ∧
     downloaded = reconciled_set t m ∧
     (∀ x, x ∈ downloaded ↔ on_disk_as x) ∧
     (∀ c, c ∈ chapters (app t) → present c = true →
           ch_id c ∈ downloaded ∧ ch_slug c ∈ downloaded) ∧
     (∀ c, c ∈ chapters (app t) →
           (ch_id c ∈ downloaded ∧ ch_slug c ∈ downloaded ↔
            on_disk_as (ch_id c) ∧ on_disk_as (ch_slug c)))) ∧
  _sync_downloaded_from_disk r.2 = (Return (), r.2).
Proof.
  intros Hm key manga_dir present on_disk_as r. subst r.
  rewrite (reconciled_set_eq t m Hm).
  rewrite (_sync_downloaded_from_disk_run t m Hm). simpl.
  rewrite Hm. simpl. rewrite lookup_insert_eq. simpl.
  split; [done|]. split; [done|]. split.
  - eexists. split; [reflexivity|]. split; [reflexivity|].
    assert (∀ x, x ∈ scan_downloaded (fs (world t)) manga_dir (chapters (app t))
                 ↔ on_disk_as x) as Hspec by (intros x; apply scan_downloaded_spec).
    split; [exact Hspec|]. split.
    + intros c Hc Hp. split; apply Hspec; exists c; auto.
    + intros c Hc. split; (intros [H1 H2]; split; by apply Hspec).
  - rewrite (_sync_downloaded_from_disk_run _ m) by done. simpl.
    by rewrite insert_insert_eq.
Qed.

(** When no two listed chapters share an identifier, a chapter has its
    identifiers in the reconciled set exactly when it is on disk. *)
Lemma sync_downloaded_exact_when_unique (t : Tui) (m : Manga) (c : Chapter) :
  selected_manga (app t) = Some m →
  identifiers_unique (chapters (app t)) →
  c ∈ chapters (app t) →
  (ch_id c ∈ reconciled_set t m ∧ ch_slug c ∈ reconciled_set t m ↔
   chapter_on_disk (fs (world t)) (["downloads"] // sanitize_filename (m_title m) "_") c = true).
Proof.
  intros Hm Huniq Hc.
  rewrite (reconciled_set_eq t m Hm), !scan_downloaded_spec. split.
  - intros [(c' & Hc' & Hp & Hx) _].
    assert (c = c') as -> by (apply Huniq; [done..|]; destruct Hx; auto).
    done.
  - intros Hp. split; exists c; auto.
Qed.

(** C6, as stated, fails: of two chapters that share id and slug, only
    the first is on disk, and the second has both its identifiers in
    the reconciled set all the same. *)
Lemma sync_downloaded_marks_absent_twin : ¬ marks_exactly_present tui_twins.
Proof.
  intros H.
  specialize (H Demo.m1 (mkChapter "1" "1" None "Chapter 1 (v2)")).
  destruct H as [H _]; [reflexivity | apply list_elem_of_further, list_elem_of_here |].
  assert (chapter_on_disk (fs (world tui_twins))
            (["downloads"] // sanitize_filename (m_title Demo.m1) "_")
            (mkChapter "1" "1" None "Chapter 1 (v2)") = false) as Habsent
    by (vm_compute; reflexivity).
  rewrite Habsent in H. enough (false = true) by done. apply H.
  assert (∀ x, x ∈ reconciled_set tui_twins Demo.m1 ↔
               ∃ c, c ∈ chapters (app tui_twins) ∧
                    chapter_on_disk (fs (world tui_twins))
                      (["downloads"] // sanitize_filename (m_title Demo.m1) "_") c = true ∧
                    (x = ch_id c ∨ x = ch_slug c)) as Hspec.
  { intros x. rewrite (reconciled_set_eq tui_twins Demo.m1 eq_refl).
    apply scan_downloaded_spec. }
  assert ("1" ∈ reconciled_set tui_twins Demo.m1) as Hin.
  { apply Hspec. exists (mkChapter "1" "1" None "Chapter 1").
    split; [apply list_elem_of_here|]. split; [vm_compute; reflexivity | by left]. }
  by split.
Qed.

(** ** Creating directories *)

Lemma dirs_ok_insert_dir t p q :
  dirs_ok t q = true → dirs_ok (<[p := Dir]> t) q = true.
Proof.
  induction q as [|name parent IH]; [done|]. rewrite !dirs_ok_cons.
  intros [Hd Hp]%andb_true_iff. apply andb_true_iff. split; [|by apply IH].
  apply is_dir_true. apply is_dir_true in Hd.
  destruct (decide (p = name :: parent)) as [->|Hne];
    [apply lookup_insert_eq | by rewrite lookup_insert_ne].
Qed.

Lemma mkdir_p_cons t name parent :
  mkdir_p t (name :: parent) =
    match mkdir_p t parent with
    | None => None
    | Some t1 =>
        match t1 !! (name :: parent) with
        | None => Some (<[name :: parent := Dir]> t1)
        | Some Dir => Some t1
        | Some (File _) => None
        end
    end.
Proof. reflexivity. Qed.

Lemma mkdir_p_dirs_ok t p t' : mkdir_p t p = Some t' → dirs_ok t' p = true.
Proof.
  revert t'. induction p as [|name parent IH]; intros t'; [done|].
  rewrite mkdir_p_cons, dirs_ok_cons.
  destruct (mkdir_p t parent) as [t1|]; [|done].
  specialize (IH t1 eq_refl).
  destruct (t1 !! (name :: parent)) as [[|d]|] eqn:Hl; intros [= <-].
  - by rewrite Hl, IH.
  - rewrite lookup_insert_eq. simpl. by apply dirs_ok_insert_dir.
Qed.

Lemma mkdir_p_idem t p : dirs_ok t p = true → mkdir_p t p = Some t.
Proof.
  induction p as [|name parent IH]; [done|]. rewrite dirs_ok_cons.
  intros [Hd Hp]%andb_true_iff. rewrite mkdir_p_cons, (IH Hp).
  apply is_dir_true in Hd. by rewrite Hd.
Qed.

(** [mkdir] adds directories and touches nothing that is there. *)
Lemma mkdir_p_subseteq t p t' : mkdir_p t p = Some t' → t ⊆ t'.
Proof.
  revert t'. induction p as [|name parent IH]; intros t'; [by intros [= <-]|].
  rewrite mkdir_p_cons.
  destruct (mkdir_p t parent) as [t1|]; [|done].
  specialize (IH t1 eq_refl).
  destruct (t1 !! (name :: parent)) as [[|d]|] eqn:Hl; intros [= <-]; [done|].
  etrans; [exact IH|]. by apply insert_subseteq.
Qed.

Lemma mkdir_p_files t p t' q d :
  mkdir_p t p = Some t' → (t' !! q = Some (File d) ↔ t !! q = Some (File d)).
Proof.
  revert t'. induction p as [|name parent IH]; intros t'; [by intros [= <-]|].
  rewrite mkdir_p_cons.
  destruct (mkdir_p t parent) as [t1|]; [|done].
  specialize (IH t1 eq_refl).
  destruct (t1 !! (name :: parent)) as [[|d']|] eqn:Hl; intros [= <-]; [done|].
  rewrite <- IH. destruct (decide (name :: parent = q)) as [<-|Hne].
  - rewrite lookup_insert_eq, Hl. split; congruence.
  - by rewrite lookup_insert_ne.
Qed.

Lemma dirs_ok_subseteq t t' p : t ⊆ t' → dirs_ok t p = true → dirs_ok t' p = true.
Proof.
  intros Hsub. induction p as [|name parent IH]; [done|]. rewrite !dirs_ok_cons.
  intros [Hd Hp]%andb_true_iff. apply andb_true_iff. split; [|by apply IH].
  apply is_dir_true. apply is_dir_true in Hd. by eapply lookup_weaken.
Qed.

(** What exists keeps existing when entries are only added. *)
Lemma path_exists_subseteq t t' p :
  t ⊆ t' → path_exists t p = true → path_exists t' p = true.
Proof.
  intros Hsub. unfold path_exists. rewrite !bool_decide_eq_true.
  destruct p as [|name parent]; [done|]. simpl.
  destruct (dirs_ok t parent) eqn:Hp; [|by intros [? ?]].
  rewrite (dirs_ok_subseteq _ _ _ Hsub Hp).
  intros [n Hn]. exists n. by eapply lookup_weaken.
Qed.

Lemma ensure_dir_run p w :
  ensure_dir p w =
    match mkdir_p (fs w) p with
    | Some t => (Return p, set_fs (λ _, t) w)
    | None => (Raise OSError, w)
    end.
Proof. unfold ensure_dir. run_monad. by destruct (mkdir_p (fs w) p). Qed.

(** ** Downloading a chapter *)

Global Instance page_missing_dec t chapter_dir page : Decision (page_missing t chapter_dir page).
Proof. unfold page_missing. apply _. Defined.

Lemma download_page_step web client chapter cd npages progress task_id log page w :
  dirs_ok (fs w) cd = true →
  let r := download_page web client chapter cd npages progress task_id log page w in
  dirs_ok (fs r.2) cd = true ∧
  fs w ⊆ fs r.2 ∧
  (∀ p, is_dir (fs r.2 !! p) = true → is_dir (fs w !! p) = true) ∧
  length (tasks r.2) = length (tasks w) ∧
  requests r.2 = requests w ++
    (if path_exists (fs w) (page_dest cd page) then [] else [page_fetch client page]) ∧
  (∀ e, r.1 = Raise e → not_download_error e) ∧
  ((page_missing (fs w) cd page → fetch_succeeds web client page) →
   task_valid progress task_id w → r.1 = Return ()).
Proof.
  intros Hdirs. destruct page as [idx url]. destruct w as [t sf sw rq lg tk].
  unfold download_page, session_get, raise_for_status, write_chunks, progress_advance,
    page_missing, fetch_succeeds, page_dest, page_fetch, task_valid, not_download_error.
  simpl in *. run_monad.
  destruct (path_exists t _) eqn:Hex; simpl.
  - (* the destination exists: the page is skipped *)
    rewrite app_nil_r.
    destruct progress, task_id as [tid|]; simpl; try (repeat split; done).
    destruct (tk !! tid) as [task|] eqn:Htid; simpl.
    + repeat split; try done. by rewrite length_insert.
    + repeat split; try done; [by intros e [= <-] msg|].
      intros _ Hv. specialize (Hv eq_refl tid eq_refl).
      apply lookup_ge_None in Htid. lia.
  - (* the destination is missing: the page is fetched *)
    assert (t !! (cd // (PyStr.zfill3 idx +:+ guess_ext_from_url url)) = None) as Hnone.
    { unfold path_exists in Hex. apply bool_decide_eq_false in Hex.
      rewrite resolve_child in Hex by done.
      by apply eq_None_not_Some. }
    destruct (web_get web client url) as [resp|exc] eqn:Hget; simpl.
    2:{ repeat split; try done; [by intros e [= <-] msg|].
        intros Hf _. by destruct (Hf eq_refl) as (? & ? & _). }
    destruct (resp_ok resp) eqn:Hok; simpl.
    2:{ repeat split; try done; [by intros e [= <-] msg|].
        intros Hf _. destruct (Hf eq_refl) as (? & [= <-] & ? & _). congruence. }
    unfold write_file, path_join in *. rewrite Hdirs, Hnone. simpl.
    set (dest := (PyStr.zfill3 idx +:+ guess_ext_from_url url) :: cd) in *.
    set (data := Bytes _).
    assert (t ⊆ <[dest := File data]> t) as Hsub by by apply insert_subseteq.
    assert (∀ p, is_dir (<[dest := File data]> t !! p) = true → is_dir (t !! p) = true) as Hd.
    { intros p. destruct (decide (dest = p)) as [<-|Hne];
        [by rewrite lookup_insert_eq | by rewrite lookup_insert_ne]. }
    assert (dirs_ok (<[dest := File data]> t) cd = true) as Hdirs'
      by by eapply dirs_ok_subseteq.
    destruct (resp_broken resp) eqn:Hbr; simpl.
    { repeat split; try done; [by intros e [= <-] msg|].
      intros Hf _. destruct (Hf eq_refl) as (? & [= <-] & _ & ?). congruence. }
    destruct progress, task_id as [tid|]; simpl;
      try (destruct (log && _); simpl; repeat split; done).
    destruct (tk !! tid) as [task|] eqn:Htid; simpl.
    + destruct (log && _); simpl; repeat split; try done; by rewrite length_insert.
    + repeat split; try done; [by intros e [= <-] msg|].
      intros _ Hv. specialize (Hv eq_refl tid eq_refl).
      apply lookup_ge_None in Htid. lia.
Qed.

Lemma filter_sublist_mono {A} (P Q : A → Prop) `{∀ x, Decision (P x)} `{∀ x, Decision (Q x)}
    (l : list A) :
  (∀ x, P x → Q x) → filter P l `sublist_of` filter Q l.
Proof.
  intros HPQ. induction l as [|x l IH]; [done|].
  rewrite !filter_cons. destruct (decide (P x)) as [HP|HP].
  - rewrite decide_True by auto. by apply sublist_skip.
  - destruct (decide (Q x)); [by apply sublist_cons | done].
Qed.

(** The page loop: it writes only files, only where nothing was, asks
    the site only for pages whose destination was missing when it
    started, and returns when all of those are served. *)
Lemma page_loop_spec web client chapter cd npages progress task_id log pgs w :
  dirs_ok (fs w) cd = true →
  let r := for_each pgs (download_page web client chapter cd npages progress task_id log) w in
  dirs_ok (fs r.2) cd = true ∧
  fs w ⊆ fs r.2 ∧
  (∀ p, is_dir (fs r.2 !! p) = true → is_dir (fs w !! p) = true) ∧
  length (tasks r.2) = length (tasks w) ∧
  (∃ fetched,
     fetched `sublist_of` filter (page_missing (fs w) cd) pgs ∧
     requests r.2 = requests w ++ (page_fetch client <$> fetched)) ∧
  (∀ e, r.1 = Raise e → not_download_error e) ∧
  ((∀ pg, pg ∈ pgs → page_missing (fs w) cd pg → fetch_succeeds web client pg) →
   task_valid progress task_id w → r.1 = Return ()).
Proof.
  revert w. induction pgs as [|pg pgs IH]; intros w Hdirs.
  - simpl. repeat split; try done. exists []. by rewrite app_nil_r.
  - simpl. unfold bind.
    destruct (download_page_step web client chapter cd npages progress task_id log pg w Hdirs)
      as (H1 & H2 & H3 & H4 & H5 & H6 & H7).
    destruct (download_page web client chapter cd npages progress task_id log pg w)
      as [[[]|e] w1] eqn:Hstep; simpl in *.
    + (* the page is done: the loop goes on from [w1] *)
      destruct (IH w1 H1) as (I1 & I2 & I3 & I4 & (fetched & I5 & I5') & I6 & I7).
      split; [done|]. split; [by etrans|]. split; [auto|]. split; [congruence|].
      split; [|split].
      * assert (filter (page_missing (fs w1) cd) pgs
                  `sublist_of` filter (page_missing (fs w) cd) pgs) as Hmono.
        { apply filter_sublist_mono. intros x. unfold page_missing.
          destruct (path_exists (fs w) (page_dest cd x)) eqn:Hx; [|done].
          by rewrite (path_exists_subseteq _ _ _ H2 Hx). }
        rewrite filter_cons. rewrite I5', H5.
        destruct (path_exists (fs w) (page_dest cd pg)) eqn:Hex.
        -- exists fetched. rewrite decide_False by (unfold page_missing; congruence).
           split; [by etrans | by rewrite app_nil_r].
        -- exists (pg :: fetched). rewrite decide_True by done.
           split; [apply sublist_skip; by etrans | by rewrite <- app_assoc].
      * done.
      * intros Hall Hv. apply I7.
        -- intros pg' Hin Hmiss. apply Hall; [by apply list_elem_of_further|].
           unfold page_missing in *.
           destruct (path_exists (fs w) (page_dest cd pg')) eqn:Hx; [|done].
           by rewrite (path_exists_subseteq _ _ _ H2 Hx) in Hmiss.
        -- unfold task_valid in *. rewrite H4. done.
    + (* the page raises: the loop ends *)
      split; [done|]. split; [done|]. split; [done|]. split; [done|].
      split; [|split; [done|]].
      * rewrite filter_cons, H5.
        destruct (path_exists (fs w) (page_dest cd pg)) eqn:Hex.
        -- exists []. split; [apply sublist_nil_l | done].
        -- exists [pg]. rewrite decide_True by done.
           split; [apply sublist_skip, sublist_nil_l | done].
      * intros Hall Hv. exfalso.
        assert (@Raise () e = Return ()) as Habs; [|done].
        apply H7; [|done]. intros Hm. apply Hall; [apply list_elem_of_here | done].
Qed.

(** [download_chapter] makes the chapter directory with its parents and
    goes on from the page list, or raises OSError. *)
Lemma download_chapter_unfold web client manga_title chapter output_dir cbz pages
    progress task_id log w :
  let manga_dir := output_dir // sanitize_filename manga_title "_" in
  let chapter_dir := chapter_dir_of output_dir manga_title chapter in
  download_chapter web client manga_title chapter output_dir cbz pages progress task_id log w =
    match mkdir_p (fs w) chapter_dir with
    | Some t1 =>
        download_chapter_body web client chapter manga_dir chapter_dir cbz pages
          progress task_id log (set_fs (λ _, t1) w)
    | None =>
        (Raise OSError,
         match mkdir_p (fs w) manga_dir with Some t0 => set_fs (λ _, t0) w | None => w end)
    end.
Proof.
  intros manga_dir chapter_dir.
  change chapter_dir with (sanitize_filename (ch_title chapter) "_" :: manga_dir).
  rewrite mkdir_p_cons.
  unfold download_chapter. fold manga_dir.
  rewrite run_bind, ensure_dir_run.
  destruct (mkdir_p (fs w) manga_dir) as [t0|] eqn:H0; [|done].
  rewrite run_bind, ensure_dir_run.
  change (manga_dir // sanitize_filename (ch_title chapter) "_")
    with (sanitize_filename (ch_title chapter) "_" :: manga_dir).
  rewrite mkdir_p_cons.
  change (fs (set_fs (λ _, t0) w)) with t0.
  rewrite (mkdir_p_idem t0 manga_dir) by by eapply mkdir_p_dirs_ok.
  destruct (t0 !! (sanitize_filename (ch_title chapter) "_" :: manga_dir)) as [[|d]|];
    [|done|]; by destruct w.
Qed.

Lemma string_length_app (a b : string) :
  String.length (a +:+ b) = (String.length a + String.length b)%nat.
Proof. induction a as [|c a IH]; simpl; [done | by rewrite IH]. Qed.

Lemma cbz_name_ne (name : string) : name +:+ ".cbz" ≠ name.
Proof.
  intros H. apply (f_equal String.length) in H. rewrite string_length_app in H.
  simpl in H. lia.
Qed.

(** Resolving the page list: the request made, and the list obtained. *)
Lemma resolve_pages_run web client chapter pages ps w :
  resolved_pages web client chapter pages = Answered ps →
  resolve_pages web client chapter pages w
  = (Return ps, add_requests (pages_requests client chapter pages) w).
Proof.
  unfold resolve_pages, resolved_pages, pages_requests, chapter_pages.
  destruct w as [t sf sw rq lg tk].
  destruct pages as [[|u us]|]; intros H; run_monad; rewrite ?H; simpl;
    try (injection H as <-); unfold add_requests; simpl; by rewrite ?app_nil_r.
Qed.

Lemma _make_cbz_run chapter_dir name parent w :
  dirs_ok (fs w) parent = true →
  let r := _make_cbz chapter_dir (parent // name) w in
  requests r.2 = requests w ∧
  (∀ p n, fs w !! p = Some n → p ≠ parent // name → fs r.2 !! p = Some n) ∧
  (∀ e, r.1 = Raise e → e = OSError) ∧
  (is_dir (fs w !! (parent // name)) = false → r.1 = Return ()).
Proof.
  intros Hd. destruct w as [t sf sw rq lg tk]. simpl in Hd.
  unfold _make_cbz, write_file, path_join. run_monad. rewrite Hd.
  destruct (t !! (name :: parent)) as [[|d]|] eqn:Hl; simpl.
  - split; [done|]. split; [by intros p n Hp Hne|].
    split; [by intros e [= <-] | by intros [=]].
  - split; [done|]. split; [intros p n Hp Hne; by rewrite lookup_insert_ne|].
    split; [by intros e [=] | done].
  - split; [done|]. split; [intros p n Hp Hne; by rewrite lookup_insert_ne|].
    split; [by intros e [=] | done].
Qed.

(** [download_chapter] from the page list on, when the list is empty. *)
Lemma download_chapter_body_empty web client chapter md cd cbz pages progress task_id log w :
  resolved_pages web client chapter pages = Answered [] →
  download_chapter_body web client chapter md cd cbz pages progress task_id log w =
    (Raise (DownloadError ("No pages found for " +:+ ch_title chapter)),
     add_requests [ReqChapterPages client (ch_id chapter)] w) ∧
  (pages = None ∨ pages = Some []).
Proof.
  intros H. unfold download_chapter_body. rewrite run_bind.
  pose proof (resolve_pages_run web client chapter pages [] w H) as Hr.
  unfold resolve_pages in Hr. rewrite Hr.
  split; [|destruct pages as [[|u us]|]; simpl in H; try discriminate; auto].
  unfold pages_requests, resolved_pages in *.
  by destruct pages as [[|u us]|].
Qed.

(** [download_chapter] from the page list on, when the list is not empty. *)
Lemma download_chapter_body_spec web client chapter md cbz pages progress task_id log ps w :
  let chapter_name := sanitize_filename (ch_title chapter) "_" in
  let cd := md // chapter_name in
  let cbz_path := md // (chapter_name +:+ ".cbz") in
  dirs_ok (fs w) cd = true →
  resolved_pages web client chapter pages = Answered ps →
  ps ≠ [] →
  let r := download_chapter_body web client chapter md cd cbz pages progress task_id log w in
  (∃ fetched,
     fetched `sublist_of` filter (page_missing (fs w) cd) (enumerate 1 ps) ∧
     requests r.2 = requests w ++ pages_requests client chapter pages
                      ++ (page_fetch client <$> fetched)) ∧
  (∀ p n, fs w !! p = Some n → p ≠ cbz_path → fs r.2 !! p = Some n) ∧
  (∀ e, r.1 = Raise e → not_download_error e) ∧
  ((∀ pg, pg ∈ enumerate 1 ps → page_missing (fs w) cd pg → fetch_succeeds web client pg) →
   task_valid progress task_id w →
   (cbz = true → is_dir (fs w !! cbz_path) = false) →
   r.1 = Return cd).
Proof.
  intros chapter_name cd cbz_path Hdirs Hres Hne r. subst r.
  unfold download_chapter_body. rewrite run_bind.
  pose proof (resolve_pages_run web client chapter pages ps w Hres) as Hr.
  unfold resolve_pages in Hr. rewrite Hr. clear Hr.
  destruct ps as [|u us]; [done|].
  set (w1 := add_requests (pages_requests client chapter pages) w).
  assert (fs w1 = fs w) as Hfs by done.
  assert (tasks w1 = tasks w) as Htk by done.
  assert (requests w1 = requests w ++ pages_requests client chapter pages) as Hrq by done.
  assert (dirs_ok (fs w1) cd = true) as Hdirs1 by by rewrite Hfs.
  destruct (page_loop_spec web client chapter cd (length (u :: us)) progress task_id log
              (enumerate 1 (u :: us)) w1 Hdirs1)
    as (L1 & L2 & L3 & L4 & (fetched & L5 & L5') & L6 & L7).
  rewrite Hfs in L2, L3, L5, L7. rewrite Htk in L4. rewrite Hrq in L5'.
  unfold task_valid in L7. rewrite Htk in L7.
  rewrite run_bind.
  destruct (for_each (enumerate 1 (u :: us)) _ w1) as [[[]|e] w2] eqn:Hloop; simpl in *.
  - (* the loop returned: the archive is made when asked for *)
    assert (dirs_ok (fs w2) md = true) as Hmd.
    { pose proof L1 as L1'. by apply andb_true_iff in L1' as [_ ?]. }
    destruct cbz; simpl.
    + rewrite run_bind.
      destruct (_make_cbz_run cd (chapter_name +:+ ".cbz") md w2 Hmd)
        as (Z1 & Z2 & Z3 & Z4).
      change (md // (chapter_name +:+ ".cbz")) with cbz_path in Z1, Z2, Z3, Z4.
      change (md // (sanitize_filename (ch_title chapter) "_" +:+ ".cbz")) with cbz_path.
      destruct (_make_cbz cd cbz_path w2) as [[[]|e] w3] eqn:Hz; simpl in *.
      * split; [exists fetched; split; [done|]; by rewrite Z1, L5', <- app_assoc|].
        split; [intros p n Hp Hq; apply Z2; [by eapply lookup_weaken | done]|].
        split; [done|]. done.
      * split; [exists fetched; split; [done|]; by rewrite Z1, L5', <- app_assoc|].
        split; [intros p n Hp Hq; apply Z2; [by eapply lookup_weaken | done]|].
        split; [intros e' [= <-]; rewrite (Z3 e eq_refl); by intros msg|].
        intros Hall Hv Hcbz. exfalso.
        assert (@Raise () e = Return ()) as Habs; [|done].
        apply Z4. specialize (Hcbz eq_refl).
        destruct (is_dir (fs w2 !! cbz_path)) eqn:Hd2; [|done].
        by rewrite (L3 _ Hd2) in Hcbz.
    + run_monad.
      split; [exists fetched; split; [done|]; by rewrite L5', <- app_assoc|].
      split; [intros p n Hp Hq; by eapply lookup_weaken|].
      split; done.
  - (* the loop raised *)
    split; [exists fetched; split; [done|]; by rewrite L5', <- app_assoc|].
    split; [intros p n Hp Hq; by eapply lookup_weaken|].
    split; [intros e' [= <-]; by apply L6|].
    intros Hall Hv _. by specialize (L7 Hall Hv).
Qed.

(** [mkdir] makes directories only along the path it is given. *)
Lemma mkdir_p_new_dirs t p t' q :
  mkdir_p t p = Some t' → is_dir (t' !! q) = true →
  is_dir (t !! q) = true ∨ q `suffix_of` p.
Proof.
  revert t'. induction p as [|name parent IH]; intros t'.
  - intros [= <-]. auto.
  - rewrite mkdir_p_cons. destruct (mkdir_p t parent) as [t1|]; [|done].
    specialize (IH t1 eq_refl).
    destruct (t1 !! (name :: parent)) as [[|d]|] eqn:Hl; intros [= <-] Hq.
    + destruct (IH Hq) as [?|?]; [by left | right; by apply suffix_cons_r].
    + destruct (decide (name :: parent = q)) as [<-|Hne]; [by right|].
      rewrite lookup_insert_ne in Hq by done.
      destruct (IH Hq) as [?|?]; [by left | right; by apply suffix_cons_r].
Qed.

Lemma cbz_path_not_made t md name t' :
  mkdir_p t (md // name) = Some t' →
  is_dir (t !! (md // (name +:+ ".cbz"))) = false →
  is_dir (t' !! (md // (name +:+ ".cbz"))) = false.
Proof.
  intros Hmk Hno. destruct (is_dir (t' !! _)) eqn:Hd; [|done].
  destruct (mkdir_p_new_dirs _ _ _ _ Hmk Hd) as [H|[k Hk]]; [congruence|].
  unfold path_join in Hk.
  assert (k = []) as ->.
  { apply (f_equal length) in Hk. rewrite length_app in Hk. simpl in Hk.
    destruct k; [done | simpl in Hk; lia]. }
  simpl in Hk. injection Hk as Hk. symmetry in Hk. by apply cbz_name_ne in Hk.
Qed.

(** A page destination that exists is an entry of the tree. *)
Lemma path_exists_lookup t p name :
  path_exists t (p // name) = true → ∃ n, t !! (p // name) = Some n.
Proof.
  intros H. pose proof (path_exists_parent _ _ _ H) as Hp.
  unfold path_exists in H. apply bool_decide_eq_true in H.
  rewrite resolve_child in H by done. by destruct H as [n Hn]; exists n.
Qed.

(** C9. [download_chapter] raises DownloadError exactly when the chapter
    directory could be made and the resolved page list is empty, that
    is, when no pages were supplied and the client returns none; it then
    has written no file and fetched no page. With a page list that is
    not empty it raises no DownloadError. *)
Theorem download_chapter_fails_iff_no_pages web client (manga_title : string)
    (chapter : Chapter) (output_dir : Path) (cbz : bool) (pages : option (list string))
    (progress : bool) (task_id : option nat) (log : bool) (w : World) :
  let chapter_dir := chapter_dir_of output_dir manga_title chapter in
  let r := download_chapter web client manga_title chapter output_dir cbz pages
             progress task_id log w in
  ((∃ msg, r.1 = Raise (DownloadError msg)) ↔
   is_Some (mkdir_p (fs w) chapter_dir) ∧
   resolved_pages web client chapter pages = Answered []) ∧
  (is_Some (mkdir_p (fs w) chapter_dir) →
   resolved_pages web client chapter pages = Answered [] →
   r.1 = Raise (DownloadError ("No pages found for " +:+ ch_title chapter)) ∧
   (pages = None ∨ pages = Some []) ∧
   (∀ p d, fs r.2 !! p = Some (File d) ↔ fs w !! p = Some (File d)) ∧
   requests r.2 = requests w ++ [ReqChapterPages client (ch_id chapter)]) ∧
  (∀ ps, resolved_pages web client chapter pages = Answered ps → ps ≠ [] →
         ∀ msg, r.1 ≠ Raise (DownloadError msg)).
Proof.
  intros chapter_dir r. subst r. rewrite download_chapter_unfold. fold chapter_dir.
  destruct (mkdir_p (fs w) chapter_dir) as [t1|] eqn:Hmk.
  - set (w1 := set_fs (λ _, t1) w).
    assert (dirs_ok (fs w1) chapter_dir = true) as Hdirs by by eapply mkdir_p_dirs_ok.
    destruct (resolved_pages web client chapter pages) as [[|u us]|exc] eqn:Hres.
    + (* the client returns no page *)
      destruct (download_chapter_body_empty web client chapter
                  (output_dir // sanitize_filename manga_title "_") chapter_dir cbz pages
                  progress task_id log w1 Hres) as [Hrun Hpages].
      rewrite Hrun. simpl. split; [split; [auto | by eexists]|].
      split; [|by intros ps [= <-]].
      intros _ _. split; [done|]. split; [done|]. split; [|done].
      intros p d. by eapply mkdir_p_files.
    + (* there are pages *)
      destruct (download_chapter_body_spec web client chapter
                  (output_dir // sanitize_filename manga_title "_") cbz pages
                  progress task_id log (u :: us) w1 Hdirs Hres) as (_ & _ & Hnot & _); [done|].
      fold chapter_dir in Hnot.
      split; [split; [|by intros [_ ?]]|].
      { intros [msg Hmsg]. by destruct (Hnot _ Hmsg msg). }
      split; [done|]. intros ps _ _ msg Hmsg. by destruct (Hnot _ Hmsg msg).
    + (* the client raises *)
      assert ((download_chapter_body web client chapter
                 (output_dir // sanitize_filename manga_title "_") chapter_dir cbz pages
                 progress task_id log w1).1 = Raise (SiteError exc)) as Hrun.
      { unfold download_chapter_body, resolved_pages, chapter_pages in *.
        destruct pages as [[|u us]|]; try discriminate; run_monad; by rewrite Hres. }
      rewrite Hrun.
      split; [split; [by intros [msg ?] | by intros [_ ?]]|].
      split; [done | by intros ps ? ? msg].
  - (* the directory cannot be made *)
    simpl. split; [split; [by intros [msg ?] | by intros [[? ?] _]]|].
    split; [by intros [? ?] | by intros ps ? ? msg].
Qed.

(** ** Resuming a chapter *)

Lemma pretty_N_char_digit (d : N) :
  (d < 10)%N →
  is_digit (pretty_N_char d) = true ∧ (PyStr.ord (pretty_N_char d) - 48)%N = d.
Proof.
  intros Hd.
  assert (d = 0 ∨ d = 1 ∨ d = 2 ∨ d = 3 ∨ d = 4 ∨ d = 5 ∨ d = 6 ∨ d = 7 ∨ d = 8 ∨ d = 9)%N
    as H by lia.
  repeat (destruct H as [->|H]; [by vm_compute|]). subst. by vm_compute.
Qed.

Lemma pretty_N_go_app (x : N) (s t : string) :
  pretty_N_go x s +:+ t = pretty_N_go x (s +:+ t).
Proof.
  revert s. induction (N.lt_wf_0 x) as [x _ IH]; intros s.
  destruct (decide (0 < x)%N) as [Hx|Hx].
  - rewrite (pretty_N_go_step x s), (pretty_N_go_step x (s +:+ t)) by done.
    rewrite IH by (apply N.div_lt; lia). reflexivity.
  - assert (x = 0%N) as -> by lia. by rewrite !pretty_N_go_0.
Qed.

Lemma leading_number_pretty_N_go (x : N) :
  ∃ k : N, ∀ acc s,
    leading_number acc (pretty_N_go x s) = leading_number (acc * 10 ^ k + x) s.
Proof.
  induction (N.lt_wf_0 x) as [x _ IH].
  destruct (decide (0 < x)%N) as [Hx|Hx].
  - destruct (IH (x `div` 10)%N) as [k Hk]; [apply N.div_lt; lia|].
    exists (k + 1)%N. intros acc s.
    rewrite pretty_N_go_step by done. rewrite Hk. simpl.
    destruct (pretty_N_char_digit (x `mod` 10)%N) as [-> ->];
      [apply N.mod_lt; lia|].
    f_equal. rewrite N.pow_add_r, N.pow_1_r.
    pose proof (N.div_mod x 10). lia.
  - assert (x = 0%N) as -> by lia. exists 0%N. intros acc s.
    rewrite pretty_N_go_0. f_equal. simpl. lia.
Qed.

Lemma leading_number_str_of_nat (n : nat) (s : string) :
  leading_number 0 (PyStr.str_of_nat n +:+ s) = leading_number (N.of_nat n) s.
Proof.
  unfold PyStr.str_of_nat, pretty, pretty_N.
  destruct (decide (N.of_nat n = 0%N)) as [->|Hn]; [done|].
  rewrite pretty_N_go_app.
  destruct (leading_number_pretty_N_go (N.of_nat n)) as [k Hk].
  rewrite Hk. f_equal.
Qed.

Lemma string_app_cons (c : ascii) (a b : string) : String c a +:+ b = String c (a +:+ b).
Proof. reflexivity. Qed.

Lemma string_app_nil (b : string) : "" +:+ b = b.
Proof. reflexivity. Qed.

Lemma string_app_assoc (a b c : string) : (a +:+ b) +:+ c = a +:+ (b +:+ c).
Proof.
  induction a as [|x a IH]; [done|]. by rewrite !string_app_cons, IH.
Qed.

Lemma leading_number_zeros (k : nat) (s : string) :
  leading_number 0 (String.concat "" (replicate k "0") +:+ s) = leading_number 0 s.
Proof.
  induction k as [|k IH]; [done|].
  assert (String.concat "" (replicate (S k) "0")
          = "0" +:+ String.concat "" (replicate k "0")) as ->.
  { destruct k; done. }
  rewrite !string_app_cons, string_app_nil. simpl. exact IH.
Qed.

(** A file name made of a zero-padded index and an extension that starts
    with a dot starts with the number of the index. *)
Lemma leading_number_zfill3 (n : nat) (e : string) :
  leading_number 0 (PyStr.zfill3 n +:+ String "." e) = N.of_nat n.
Proof.
  unfold PyStr.zfill3. cbv zeta.
  rewrite string_app_assoc, leading_number_zeros, leading_number_str_of_nat. done.
Qed.

Lemma substring_from_get (s : string) (n : nat) (c : ascii) :
  String.get n s = Some c →
  ∃ e, String.substring n (String.length s - n) s = String c e.
Proof.
  revert n. induction s as [|d s IH]; intros n; [by destruct n|].
  destruct n as [|n]; simpl.
  - intros [= ->]. by eexists.
  - intros H. by apply IH.
Qed.

Lemma rfind_from_spec (c : ascii) (s : string) (i found : Z) :
  let r := PyStr.rfind_from c s i found in
  r = found ∨ (i ≤ r ∧ String.get (Z.to_nat (r - i)) s = Some c).
Proof.
  revert i found. induction s as [|d s IH]; intros i found; simpl; [by left|].
  destruct (IH (i + 1) (if bool_decide (d = c) then i else found)) as [H|[H1 H2]].
  - rewrite H. case_bool_decide as Hd; [|by left].
    right. split; [lia|]. rewrite Z.sub_diag. simpl. by rewrite Hd.
  - right. split; [lia|].
    replace (Z.to_nat (PyStr.rfind_from c s (i + 1) (if bool_decide (d = c) then i else found) - i))
      with (S (Z.to_nat (PyStr.rfind_from c s (i + 1)
                           (if bool_decide (d = c) then i else found) - (i + 1)))) by lia.
    done.
Qed.

(** The extension [guess_ext_from_url] gives starts with a dot. *)
Lemma guess_ext_from_url_dot (url : string) :
  ∃ e, guess_ext_from_url url = String "." e.
Proof.
  unfold guess_ext_from_url, splitext_ext.
  set (base := PyStr.split_head "?" url).
  destruct ((PyStr.rfind "/" base <? PyStr.rfind "." base)
            && splitext_scan (String.length base) base (PyStr.rfind "/" base + 1)
                 (PyStr.rfind "." base)) eqn:Hc; [|by eexists].
  apply andb_true_iff in Hc as [Hlt _]. apply Z.ltb_lt in Hlt.
  unfold PyStr.rfind in *.
  destruct (rfind_from_spec "/" base 0 (-1)) as [Hs|[Hs _]];
  destruct (rfind_from_spec "." base 0 (-1)) as [Hd|[Hd Hg]]; try lia.
  all: rewrite Z.sub_0_r in Hg;
    destruct (substring_from_get _ _ _ Hg) as [e He];
    unfold PyStr.drop; rewrite He; simpl; by eexists.
Qed.

Lemma page_dest_index (cd : Path) (p q : nat * string) :
  page_dest cd p = page_dest cd q → p.1 = q.1.
Proof.
  unfold page_dest, path_join. intros [= H].
  destruct (guess_ext_from_url_dot p.2) as [e1 H1].
  destruct (guess_ext_from_url_dot q.2) as [e2 H2].
  rewrite H1, H2 in H. apply (f_equal (leading_number 0)) in H.
  rewrite !leading_number_zfill3 in H. lia.
Qed.

Lemma enumerate_fst {A} (k : nat) (l : list A) : (enumerate k l).*1 = seq k (length l).
Proof. revert k. induction l as [|x l IH]; intros k; simpl; [done | by rewrite IH]. Qed.

Lemma NoDup_fmap_through {A B C} (f : A → B) (g : A → C) (l : list A) :
  (∀ x y, f x = f y → g x = g y) → NoDup (g <$> l) → NoDup (f <$> l).
Proof.
  intros Hfg. induction l as [|x l IH]; simpl; [constructor|].
  rewrite !NoDup_cons. intros [Hx Hl]. split; [|by apply IH].
  rewrite list_elem_of_fmap. intros (y & Hy & Hin). apply Hx.
  rewrite list_elem_of_fmap. exists y. split; [by apply Hfg | done].
Qed.

(** The pages of a chapter have pairwise distinct destinations. *)
Lemma page_dest_NoDup (cd : Path) (k : nat) (ps : list string) :
  NoDup (page_dest cd <$> enumerate k ps).
Proof.
  apply (NoDup_fmap_through _ fst); [apply page_dest_index|].
  rewrite enumerate_fst. apply NoDup_seq.
Qed.

Lemma path_exists_child t cd name :
  dirs_ok t cd = true →
  path_exists t (cd // name) = bool_decide (is_Some (t !! (cd // name))).
Proof. intros H. unfold path_exists. by rewrite resolve_child. Qed.

(** A page that is served: what the step leaves on disk. *)
Lemma download_page_exact web client chapter cd npages progress task_id log page w :
  dirs_ok (fs w) cd = true →
  (page_missing (fs w) cd page → fetch_succeeds web client page) →
  let r := download_page web client chapter cd npages progress task_id log page w in
  r.1 = Return () →
  fs r.2 = if path_exists (fs w) (page_dest cd page) then fs w
           else <[page_dest cd page := File (page_bytes web client page)]> (fs w).
Proof.
  intros Hdirs. destruct page as [idx url]. destruct w as [t sf sw rq lg tk].
  unfold download_page, session_get, raise_for_status, write_chunks, progress_advance,
    page_missing, fetch_succeeds, page_dest, page_fetch, page_bytes.
  simpl in *. run_monad.
  destruct (path_exists t _) eqn:Hex; simpl.
  - intros _. destruct progress, task_id as [tid|]; simpl; try done.
    by destruct (tk !! tid).
  - intros Hf. destruct (Hf eq_refl) as (resp & Hget & Hok & Hbr).
    assert (t !! (cd // (PyStr.zfill3 idx +:+ guess_ext_from_url url)) = None) as Hnone.
    { unfold path_exists in Hex. apply bool_decide_eq_false in Hex.
      rewrite resolve_child in Hex by done.
      by apply eq_None_not_Some. }
    rewrite Hget. simpl. rewrite Hok. simpl.
    unfold write_file, path_join in *. rewrite Hdirs, Hnone. simpl. rewrite Hbr. simpl.
    destruct progress, task_id as [tid|]; simpl;
      try (destruct (log && _); simpl; done).
    destruct (tk !! tid) as [task|] eqn:Htid; simpl; [|done].
    by destruct (log && _).
Qed.

Lemma filter_ext_in {A} (P Q : A → Prop) `{∀ x, Decision (P x)} `{∀ x, Decision (Q x)}
    (l : list A) :
  (∀ x, x ∈ l → (P x ↔ Q x)) → filter P l = filter Q l.
Proof.
  induction l as [|x l IH]; intros HPQ; [done|].
  rewrite !filter_cons.
  rewrite IH by (intros y Hy; apply HPQ; by apply list_elem_of_further).
  destruct (decide (P x)) as [HP|HP].
  - rewrite decide_True; [done|]. apply HPQ; [apply list_elem_of_here | done].
  - rewrite decide_False; [done|]. intros HQ. apply HP. apply HPQ; [apply list_elem_of_here | done].
Qed.

(** The page loop when every missing page is served: it asks the site
    for exactly the missing pages, in order, stores what it receives at
    their destinations, and leaves every other path as it was. *)
Lemma page_loop_exact web client chapter cd npages progress task_id log pgs w :
  dirs_ok (fs w) cd = true →
  NoDup (page_dest cd <$> pgs) →
  (∀ pg, pg ∈ pgs → page_missing (fs w) cd pg → fetch_succeeds web client pg) →
  task_valid progress task_id w →
  let r := for_each pgs (download_page web client chapter cd npages progress task_id log) w in
  r.1 = Return () ∧
  requests r.2 = requests w ++ (page_fetch client <$> filter (page_missing (fs w) cd) pgs) ∧
  (∀ pg, pg ∈ pgs → page_missing (fs w) cd pg →
         fs r.2 !! page_dest cd pg = Some (File (page_bytes web client pg))) ∧
  (∀ p, (∀ pg, pg ∈ pgs → page_missing (fs w) cd pg → p ≠ page_dest cd pg) →
        fs r.2 !! p = fs w !! p).
Proof.
  revert w. induction pgs as [|pg pgs IH]; intros w Hdirs Hnd Hall Hv.
  - simpl. split; [done|]. split; [by rewrite app_nil_r|].
    split; [|done]. intros pg Hin. by apply elem_of_nil in Hin.
  - simpl. unfold bind. rewrite fmap_cons, NoDup_cons in Hnd. destruct Hnd as [Hpg Hnd].
    destruct (download_page_step web client chapter cd npages progress task_id log pg w Hdirs)
      as (H1 & H2 & _ & H4 & H5 & _ & H7).
    pose proof (download_page_exact web client chapter cd npages progress task_id log pg w Hdirs)
      as Hfs.
    assert (page_missing (fs w) cd pg → fetch_succeeds web client pg) as Hpgok
      by (intros ?; apply Hall; [apply list_elem_of_here | done]).
    specialize (H7 Hpgok Hv). specialize (Hfs Hpgok).
    destruct (download_page web client chapter cd npages progress task_id log pg w)
      as [[[]|e] w1] eqn:Hstep; simpl in *; [|done].
    specialize (Hfs eq_refl).
    (* the pages that follow are missing after the step as they were before *)
    assert (∀ pg', pg' ∈ pgs →
              (page_missing (fs w1) cd pg' ↔ page_missing (fs w) cd pg')) as Hsame.
    { intros pg' Hin. unfold page_missing.
      assert (page_dest cd pg' ≠ page_dest cd pg) as Hne.
      { intros Heq. apply Hpg. rewrite <- Heq. apply list_elem_of_fmap. by exists pg'. }
      unfold page_dest in *. rewrite !path_exists_child by done. rewrite Hfs.
      destruct (path_exists (fs w) _); [done|].
      by rewrite lookup_insert_ne. }
    destruct (IH w1 H1 Hnd) as (I1 & I2 & I3 & I4).
    { intros pg' Hin Hm. apply Hall; [by apply list_elem_of_further | by apply Hsame]. }
    { unfold task_valid in *. by rewrite H4. }
    rewrite (filter_ext_in _ (page_missing (fs w) cd)) in I2 by exact Hsame.
    split; [done|]. split; [|split].
    + rewrite I2, H5, filter_cons.
      destruct (path_exists (fs w) (page_dest cd pg)) eqn:Hex.
      * rewrite decide_False by (unfold page_missing; congruence). by rewrite app_nil_r.
      * rewrite decide_True by done. by rewrite <- app_assoc.
    + intros pg' Hin Hm. apply elem_of_cons in Hin as [->|Hin].
      * rewrite I4.
        -- rewrite Hfs. unfold page_missing in Hm. rewrite Hm. apply lookup_insert_eq.
        -- intros pg'' Hin'' _ Heq. apply Hpg. rewrite Heq.
           apply list_elem_of_fmap. by exists pg''.
      * apply I3; [done | by apply Hsame].
    + intros p Hp. rewrite I4.
      * rewrite Hfs. destruct (path_exists (fs w) (page_dest cd pg)) eqn:Hex; [done|].
        apply lookup_insert_ne. intros Heq. symmetry in Heq. revert Heq.
        apply Hp; [apply list_elem_of_here | done].
      * intros pg' Hin Hm. apply Hp; [by apply list_elem_of_further | by apply Hsame].
Qed.

Lemma dirs_ok_agree t t' q :
  (∀ p, is_dir (t !! p) = true → t' !! p = t !! p) →
  dirs_ok t q = true → dirs_ok t' q = true.
Proof.
  intros Hag. induction q as [|name parent IH]; [done|]. rewrite !dirs_ok_cons.
  intros [Hd Hp]%andb_true_iff. apply andb_true_iff. split; [|by apply IH].
  by rewrite (Hag _ Hd).
Qed.

(** Making the archive touches the archive path only. *)
Lemma _make_cbz_frame chapter_dir cbz_path w p :
  p ≠ cbz_path → fs (_make_cbz chapter_dir cbz_path w).2 !! p = fs w !! p.
Proof.
  intros Hne. destruct w as [t sf sw rq lg tk].
  unfold _make_cbz, write_file. run_monad.
  destruct cbz_path as [|name parent]; [done|].
  destruct (dirs_ok t parent); [|done].
  destruct (t !! (name :: parent)) as [[|d]|]; simpl; [done|..];
    by rewrite lookup_insert_ne.
Qed.

(** [download_chapter] from the page list on, when the list is not empty
    and every missing page is served. *)
Lemma download_chapter_body_exact web client chapter md cbz pages progress task_id log ps w :
  let chapter_name := sanitize_filename (ch_title chapter) "_" in
  let cd := md // chapter_name in
  let cbz_path := md // (chapter_name +:+ ".cbz") in
  let missing := filter (page_missing (fs w) cd) (enumerate 1 ps) in
  dirs_ok (fs w) cd = true →
  resolved_pages web client chapter pages = Answered ps →
  ps ≠ [] →
  (∀ pg, pg ∈ missing → fetch_succeeds web client pg) →
  task_valid progress task_id w →
  (cbz = true → is_dir (fs w !! cbz_path) = false) →
  let r := download_chapter_body web client chapter md cd cbz pages progress task_id log w in
  r.1 = Return cd ∧
  requests r.2 = requests w ++ pages_requests client chapter pages
                   ++ (page_fetch client <$> missing) ∧
  (∀ pg, pg ∈ missing →
         fs r.2 !! page_dest cd pg = Some (File (page_bytes web client pg))) ∧
  (∀ pg, pg ∈ enumerate 1 ps → pg ∉ missing →
         fs r.2 !! page_dest cd pg = fs w !! page_dest cd pg) ∧
  (∀ pg, pg ∈ enumerate 1 ps → path_exists (fs r.2) (page_dest cd pg) = true).
Proof.
  intros chapter_name cd cbz_path missing Hdirs Hres Hne Hall Hv Hcbz r. subst r.
  unfold download_chapter_body. rewrite run_bind.
  pose proof (resolve_pages_run web client chapter pages ps w Hres) as Hr.
  unfold resolve_pages in Hr. rewrite Hr. clear Hr.
  destruct ps as [|u us]; [done|].
  set (w1 := add_requests (pages_requests client chapter pages) w).
  assert (fs w1 = fs w) as Hfs by done.
  assert (requests w1 = requests w ++ pages_requests client chapter pages) as Hrq by done.
  destruct (page_loop_exact web client chapter cd (length (u :: us)) progress task_id log
              (enumerate 1 (u :: us)) w1) as (L1 & L2 & L3 & L4).
  { by rewrite Hfs. }
  { apply page_dest_NoDup. }
  { intros pg Hin Hm. apply Hall. apply list_elem_of_filter. by split. }
  { exact Hv. }
  destruct (page_loop_spec web client chapter cd (length (u :: us)) progress task_id log
              (enumerate 1 (u :: us)) w1) as (S1 & _ & S3 & _); [by rewrite Hfs|].
  rewrite Hfs in L2, L3, L4, S3. rewrite Hrq in L2.
  rewrite run_bind.
  destruct (for_each (enumerate 1 (u :: us)) _ w1) as [[[]|e] w2] eqn:Hloop;
    simpl in L1, L2, L3, L4, S1, S3; [|done].
  (* what the loop leaves: every page is there *)
  assert (∀ pg, pg ∈ enumerate 1 (u :: us) → pg ∉ missing →
                fs w2 !! page_dest cd pg = fs w !! page_dest cd pg) as Hold.
  { intros pg Hin Hnm. apply L4. intros pg' Hin' Hm' Heq. apply Hnm.
    apply list_elem_of_filter. split; [|done].
    unfold page_missing in *. by rewrite Heq. }
  assert (∀ pg, pg ∈ enumerate 1 (u :: us) → is_Some (fs w2 !! page_dest cd pg)) as Hthere.
  { intros pg Hin. destruct (decide (page_missing (fs w) cd pg)) as [Hm|Hm].
    - rewrite L3 by done. by eexists.
    - rewrite Hold by (try done; intros [? _]%list_elem_of_filter; done).
      unfold page_missing in Hm. apply not_false_is_true in Hm.
      unfold page_dest in *. by apply path_exists_lookup in Hm as [n ->]. }
  assert (∀ pg, page_dest cd pg ≠ cbz_path) as Hnecbz.
  { intros pg Heq. apply (f_equal length) in Heq. unfold page_dest, cbz_path, cd, path_join in Heq.
    simpl in Heq. lia. }
  destruct cbz; simpl.
  - rewrite run_bind.
    assert (dirs_ok (fs w2) md = true) as Hmd.
    { pose proof S1 as S1'. by apply andb_true_iff in S1' as [_ ?]. }
    destruct (_make_cbz_run cd (chapter_name +:+ ".cbz") md w2 Hmd) as (Z1 & _ & _ & Z4).
    pose proof (_make_cbz_frame cd cbz_path w2) as Z5.
    change (md // (chapter_name +:+ ".cbz")) with cbz_path in Z1, Z4.
    change (md // (sanitize_filename (ch_title chapter) "_" +:+ ".cbz")) with cbz_path.
    assert (is_dir (fs w2 !! cbz_path) = false) as Hnd.
    { destruct (is_dir (fs w2 !! cbz_path)) eqn:Hd2; [|done].
      rewrite <- (Hcbz eq_refl). symmetry. by apply S3. }
    specialize (Z4 Hnd).
    destruct (_make_cbz cd cbz_path w2) as [[[]|e] w3] eqn:Hz; simpl in *; [|done].
    split; [done|]. split; [by rewrite Z1, L2, <- app_assoc|].
    split; [intros pg Hm; rewrite Z5 by done;
            apply list_elem_of_filter in Hm as [Hm Hin]; by apply L3|].
    split; [intros pg Hin Hnm; rewrite Z5 by done; by apply Hold|].
    intros pg Hin. unfold page_dest. rewrite path_exists_child.
    + apply bool_decide_eq_true. fold (page_dest cd pg). rewrite Z5 by done. by apply Hthere.
    + apply (dirs_ok_agree (fs w2)); [|done].
      intros p Hp. apply Z5. intros ->. congruence.
  - run_monad.
    split; [done|]. split; [by rewrite L2, <- app_assoc|].
    split; [intros pg Hm; apply list_elem_of_filter in Hm as [Hm Hin]; by apply L3|].
    split; [done|].
    intros pg Hin. unfold page_dest. rewrite path_exists_child by done.
    apply bool_decide_eq_true. by apply Hthere.
Qed.

(** C7. Whatever the outcome of [download_chapter], the pages it asks the
    site for are among those whose destination was missing when it was
    called, and a destination that existed is left as it was. When the
    page list is not empty, the chapter directory can be made, every
    page missing once it is made is served, the progress task (if any)
    is valid and the archive path (if asked for) is not a directory, the
    call returns the chapter directory, has asked the site for exactly
    the missing pages, in page order, and has stored what it received at
    their destinations, so that the destination of every page exists;
    the pages missing then were missing at the call, and they are the
    pages missing at the call when the chapter directory existed. *)
Theorem download_chapter_resumes web client (manga_title : string) (chapter : Chapter)
    (output_dir : Path) (cbz : bool) (pages : option (list string))
    (progress : bool) (task_id : option nat) (log : bool) (w : World)
    (ps : list string) :
  resolved_pages web client chapter pages = Answered ps →
  let chapter_dir := chapter_dir_of output_dir manga_title chapter in
  let cbz_path := output_dir // sanitize_filename manga_title "_"
                    // (sanitize_filename (ch_title chapter) "_" +:+ ".cbz") in
  let r := download_chapter web client manga_title chapter output_dir cbz pages
             progress task_id log w in
  (∃ pre fetched,
     requests r.2 = requests w ++ pre ++ (page_fetch client <$> fetched) ∧
     Forall (λ q, is_page_fetch q = false) pre ∧
     fetched `sublist_of` filter (page_missing (fs w) chapter_dir) (enumerate 1 ps)) ∧
  (∀ pg, pg ∈ enumerate 1 ps →
         path_exists (fs w) (page_dest chapter_dir pg) = true →
         fs r.2 !! page_dest chapter_dir pg = fs w !! page_dest chapter_dir pg) ∧
  (∀ t1, ps ≠ [] →
     mkdir_p (fs w) chapter_dir = Some t1 →
     let missing := filter (page_missing t1 chapter_dir) (enumerate 1 ps) in
     (∀ pg, pg ∈ missing → fetch_succeeds web client pg) →
     task_valid progress task_id w →
     (cbz = true → is_dir (fs w !! cbz_path) = false) →
     r.1 = Return chapter_dir ∧
     requests r.2 = requests w ++ pages_requests client chapter pages
                      ++ (page_fetch client <$> missing) ∧
     (∀ pg, pg ∈ missing →
            fs r.2 !! page_dest chapter_dir pg = Some (File (page_bytes web client pg))) ∧
     (∀ pg, pg ∈ enumerate 1 ps →
            path_exists (fs r.2) (page_dest chapter_dir pg) = true) ∧
     (∀ pg, pg ∈ missing → page_missing (fs w) chapter_dir pg) ∧
     (dirs_ok (fs w) chapter_dir = true →
      missing = filter (page_missing (fs w) chapter_dir) (enumerate 1 ps))).
Proof.
  intros Hres chapter_dir cbz_path r. subst r. rewrite download_chapter_unfold.
  fold chapter_dir.
  assert (∀ t', fs w ⊆ t' → ∀ pg,
            path_exists (fs w) (page_dest chapter_dir pg) = true →
            t' !! page_dest chapter_dir pg = fs w !! page_dest chapter_dir pg) as Hkeep.
  { intros t' Hsub pg Hex. unfold page_dest in *.
    apply path_exists_lookup in Hex as [n Hn].
    rewrite Hn. by eapply lookup_weaken. }
  destruct (mkdir_p (fs w) chapter_dir) as [t1|] eqn:Hmk.
  - set (w1 := set_fs (λ _, t1) w).
    assert (dirs_ok (fs w1) chapter_dir = true) as Hdirs by by eapply mkdir_p_dirs_ok.
    assert (fs w ⊆ t1) as Hsub by by eapply mkdir_p_subseteq.
    assert (∀ pg, page_missing t1 chapter_dir pg → page_missing (fs w) chapter_dir pg) as Hmiss.
    { intros pg. unfold page_missing.
      destruct (path_exists (fs w) (page_dest chapter_dir pg)) eqn:Hx; [|done].
      by rewrite (path_exists_subseteq _ _ _ Hsub Hx). }
    destruct (decide (ps = [])) as [->|Hne].
    + destruct (download_chapter_body_empty web client chapter
                  (output_dir // sanitize_filename manga_title "_") chapter_dir cbz pages
                  progress task_id log w1 Hres) as [Hrun _].
      rewrite Hrun. simpl. split; [|split; [|done]].
      * exists [ReqChapterPages client (ch_id chapter)], []. simpl.
        split; [by rewrite ?app_nil_r|]. split; [by repeat constructor | done].
      * intros pg Hin. by apply elem_of_nil in Hin.
    + destruct (download_chapter_body_spec web client chapter
                  (output_dir // sanitize_filename manga_title "_") cbz pages
                  progress task_id log ps w1 Hdirs Hres Hne)
        as ((fetched & B1 & B1') & B2 & _ & _).
      fold chapter_dir cbz_path in B1, B1', B2 |- *.
      split; [|split].
      * exists (pages_requests client chapter pages), fetched.
        split; [exact B1'|]. split.
        -- unfold pages_requests. destruct pages as [[|? ?]|]; by repeat constructor.
        -- etrans; [exact B1|]. by apply filter_sublist_mono.
      * intros pg Hin Hex. pose proof Hex as Hex'. unfold page_dest in Hex' |- *.
        apply path_exists_lookup in Hex' as [n Hn]. rewrite Hn.
        apply B2; [by eapply lookup_weaken|].
        unfold page_dest, cbz_path, chapter_dir, chapter_dir_of, path_join.
        intros Heq. apply (f_equal length) in Heq. simpl in Heq. lia.
      * intros t1' _ [= <-] missing Hall Hv Hcbz.
        destruct (download_chapter_body_exact web client chapter
                    (output_dir // sanitize_filename manga_title "_") cbz pages
                    progress task_id log ps w1 Hdirs Hres Hne)
          as (E1 & E2 & E3 & _ & E5).
        { exact Hall. }
        { exact Hv. }
        { intros Hc. eapply cbz_path_not_made; [exact Hmk | by apply Hcbz]. }
        fold chapter_dir in E1, E2, E3, E5.
        split; [exact E1|]. split; [exact E2|]. split; [exact E3|]. split; [exact E5|].
        split.
        -- intros pg [Hm _]%list_elem_of_filter. by apply Hmiss.
        -- intros Hd. rewrite (mkdir_p_idem _ _ Hd) in Hmk. by injection Hmk as <-.
  - (* the directory cannot be made: nothing is fetched *)
    assert (∃ w0, (match mkdir_p (fs w) (output_dir // sanitize_filename manga_title "_") with
                   | Some t0 => set_fs (λ _, t0) w
                   | None => w
                   end) = w0 ∧ requests w0 = requests w ∧ fs w ⊆ fs w0) as (w0 & -> & Hrq & Hsub).
    { destruct (mkdir_p (fs w) (output_dir // sanitize_filename manga_title "_")) eqn:H0;
        eexists; (split; [reflexivity|]); (split; [done|]); simpl;
        [by eapply mkdir_p_subseteq | done]. }
    simpl. split; [|split].
    + exists [], []. simpl. split; [by rewrite Hrq, app_nil_r|].
      split; [done | apply sublist_nil_l].
    + intros pg _ Hex. by apply Hkeep.
    + by intros t1 _ [=].
Qed.

(** ** Instances on the sample data *)

Lemma get_client_defaults_to_kisslove_witness :
  PyStr.strip (PyStr.lower "Kiss Love ") ≠ "mangakatana" ∧
  get_client "Kiss Love " = KissLoveClient.
Proof.
  split; [vm_compute; discriminate|].
  apply (get_client_defaults_to_kisslove "Kiss Love "). vm_compute. discriminate.
Defined.

Lemma five_chapters_identifiers_unique : identifiers_unique Demo.five_chapters.
Proof.
  intros c c' Hc Hc' H. unfold Demo.five_chapters in *.
  cbn [fmap list_fmap] in Hc, Hc'. rewrite !elem_of_cons in Hc, Hc'.
  destruct Hc as [->|[->|[->|[->|[->|Hc]]]]]; [..|by apply elem_of_nil in Hc];
  destruct Hc' as [->|[->|[->|[->|[->|Hc']]]]]; try (by apply elem_of_nil in Hc');
    try reflexivity; simpl in H; destruct H as [H|[H|[H|H]]]; discriminate H.
Qed.

Lemma sync_downloaded_reconciles_witness :
  selected_manga (app Demo.tui_disk) = Some Demo.m1 ∧
  ∃ downloaded : gset string,
    downloaded_chapters (app (_sync_downloaded_from_disk Demo.tui_disk).2)
      !! ("kisslove", "/manga/one") = Some downloaded ∧
    ("5" ∈ downloaded ∧ "3" ∈ downloaded) ∧
    "4" ∉ downloaded.
Proof.
  split; [reflexivity|].
  destruct (sync_downloaded_reconciles Demo.tui_disk Demo.m1 eq_refl)
    as (_ & _ & (downloaded & Hkey & _ & Hspec & Hif & _) & _).
  exists downloaded. split; [exact Hkey|]. split.
  - split.
    + apply (Hif (Demo.chapter "5")); [|vm_compute; reflexivity].
      apply list_elem_of_here.
    + apply (Hif (Demo.chapter "3")); [|vm_compute; reflexivity].
      do 2 apply list_elem_of_further. apply list_elem_of_here.
  - intros H4. apply Hspec in H4 as (c & Hc & Hp & Hx).
    unfold Demo.tui_disk in Hc. simpl in Hc. unfold Demo.five_chapters in Hc.
    cbn [fmap list_fmap] in Hc. rewrite !elem_of_cons in Hc.
    destruct Hc as [->|[->|[->|[->|[->|Hc]]]]]; [..|by apply elem_of_nil in Hc];
      first [ by destruct Hx | vm_compute in Hp; discriminate Hp ].
Defined.

Lemma download_chapter_fails_iff_no_pages_witness :
  is_Some (mkdir_p (fs Demo.world0) (chapter_dir_of ["downloads"] "My Manga?" Demo.chapter1)) ∧
  resolved_pages Demo.web_no_pages KissLoveClient Demo.chapter1 None = Answered [] ∧
  (download_chapter Demo.web_no_pages KissLoveClient "My Manga?" Demo.chapter1 ["downloads"]
     false None false None true Demo.world0).1
    = Raise (DownloadError "No pages found for Ch: 1").
Proof.
  assert (is_Some (mkdir_p (fs Demo.world0)
                     (chapter_dir_of ["downloads"] "My Manga?" Demo.chapter1))) as Hmk.
  { apply not_eq_None_Some. vm_compute. discriminate. }
  split; [exact Hmk|]. split; [reflexivity|].
  apply (proj1 (proj2 (download_chapter_fails_iff_no_pages Demo.web_no_pages KissLoveClient
           "My Manga?" Demo.chapter1 ["downloads"] false None false None true Demo.world0))
           Hmk eq_refl).
Defined.

Lemma download_chapter_resumes_witness :
  let cd := chapter_dir_of ["downloads"] "My Manga?" Demo.chapter1 in
  let r := download_chapter Demo.web KissLoveClient "My Manga?" Demo.chapter1 ["downloads"]
             true None false None true Demo.world_partial in
  resolved_pages Demo.web KissLoveClient Demo.chapter1 None = Answered Demo.pages ∧
  mkdir_p (fs Demo.world_partial) cd = Some (fs Demo.world_partial) ∧
  path_exists (fs Demo.world_partial) (page_dest cd (1%nat, "http://img.example/a.png")) = true ∧
  r.1 = Return cd ∧
  requests r.2 = requests Demo.world_partial ++
                   [ReqChapterPages KissLoveClient "c1";
                    ReqGet KissLoveClient "http://img.example/b";
                    ReqGet KissLoveClient "http://img.example/c.gif?x=1"] ∧
  fs r.2 !! page_dest cd (1%nat, "http://img.example/a.png")
    = Some (File (Bytes "xxyy")) ∧
  fs r.2 !! page_dest cd (2%nat, "http://img.example/b") = Some (File (Bytes "zz")) ∧
  path_exists (fs r.2) (page_dest cd (3%nat, "http://img.example/c.gif?x=1")) = true.
Proof.
  intros cd r.
  assert (mkdir_p (fs Demo.world_partial) cd = Some (fs Demo.world_partial)) as Hmk
    by (vm_compute; reflexivity).
  assert (path_exists (fs Demo.world_partial)
            (page_dest cd (1%nat, "http://img.example/a.png")) = true) as Hone
    by (vm_compute; reflexivity).
  split; [reflexivity|]. split; [exact Hmk|]. split; [exact Hone|].
  destruct (download_chapter_resumes Demo.web KissLoveClient "My Manga?" Demo.chapter1
              ["downloads"] true None false None true Demo.world_partial Demo.pages eq_refl)
    as (_ & Hkeep & Hdone).
  destruct (Hdone (fs Demo.world_partial)) as (E1 & E2 & E3 & E4 & _).
  - discriminate.
  - exact Hmk.
  - intros pg _. eexists. split; [reflexivity|]. split; reflexivity.
  - intros Hp. discriminate Hp.
  - intros _. vm_compute. reflexivity.
  - split; [exact E1|]. split; [|split; [|split]].
    + etrans; [exact E2|]. vm_compute. reflexivity.
    + etrans; [apply Hkeep; [apply list_elem_of_here | exact Hone]|].
      vm_compute. reflexivity.
    + etrans; [apply E3|]; [|vm_compute; reflexivity].
      apply list_elem_of_filter. split; [vm_compute; reflexivity|].
      apply list_elem_of_further, list_elem_of_here.
    + apply E4. do 2 apply list_elem_of_further. apply list_elem_of_here.
Defined.

(** ** Further properties of the terminal application *)

(** With no source selected, [search_manga] only writes two log lines:
    no site is asked and the result list stays as it was. *)
Theorem search_manga_without_sources web refill (query : string) (t : Tui) :
  selected_sources (app t) = [] →
  search_manga web refill query t =
    (Return (),
     mkTui (app t)
           (add_log_line "Select at least one source before searching"
              (add_log_line ("Searching: " +:+ query) (world t)))
           (workers t)).
Proof.
  intros Hnone. destruct t as [a w ws]. simpl in *.
  unfold search_manga, _log. run_monad. by rewrite Hnone.
Qed.

Lemma search_manga_without_sources_witness :
  selected_sources App_init = [] ∧
  requests (world (search_manga Demo.web Demo.refill "q"
                     (mkTui App_init Demo.world0 [])).2) = [] ∧
  log_lines (world (search_manga Demo.web Demo.refill "q"
                      (mkTui App_init Demo.world0 [])).2)
    = ["Searching: q"; "Select at least one source before searching"].
Proof.
  split; [reflexivity|].
  rewrite (search_manga_without_sources Demo.web Demo.refill "q"
             (mkTui App_init Demo.world0 []) eq_refl).
  split; reflexivity.
Defined.

(** [download_range] without a selected manga, or with an empty chapter
    list, writes one log line and does nothing else. *)
Theorem download_range_guards web refill (t : Tui) :
  (selected_manga (app t) = None →
   download_range web refill t =
     (Return (), mkTui (app t) (add_log_line "Select a manga first" (world t)) (workers t))) ∧
  (∀ m, selected_manga (app t) = Some m → chapters (app t) = [] →
   download_range web refill t =
     (Return (), mkTui (app t) (add_log_line "No chapters loaded" (world t)) (workers t))).
Proof.
  destruct t as [a w ws]. simpl. unfold download_range, _log.
  split.
  - intros Hm. run_monad. by rewrite Hm.
  - intros m Hm Hc. run_monad. by rewrite Hm, Hc.
Qed.

Lemma download_range_guards_witness :
  selected_manga App_init = None ∧
  download_range Demo.web Demo.refill (mkTui App_init Demo.world0 []) =
    (Return (),
     mkTui App_init (add_log_line "Select a manga first" Demo.world0) []).
Proof.
  split; [reflexivity|].
  apply (proj1 (download_range_guards Demo.web Demo.refill (mkTui App_init Demo.world0 []))).
  reflexivity.
Defined.

(** A failed chapter-list load raises the site's error after one log
    line and one request: the chapter list, the range and everything
    else in the application are as before. *)
Theorem load_chapters_failure_leaves_state web refill (slug : string) (t : Tui) (exc : string) :
  web_chapters web (client (app t)) slug = Failed exc →
  load_chapters_body web refill slug t =
    (Raise (SiteError exc),
     mkTui (app t)
           (add_request (ReqChapters (client (app t)) slug)
              (add_log_line ("Loading chapters for " +:+ slug) (world t)))
           (workers t)).
Proof.
  intros Hfail. destruct t as [a w ws]. simpl in *.
  unfold load_chapters_body, load_chapters_fetch, client_chapters, _log.
  run_monad. by rewrite Hfail.
Qed.

Lemma load_chapters_failure_leaves_state_witness :
  web_chapters web_down (client (app Demo.tui_disk)) "/manga/one" = Failed "ConnectionError" ∧
  (load_chapters_body web_down Demo.refill "/manga/one" Demo.tui_disk).1
    = Raise (SiteError "ConnectionError") ∧
  chapters (app (load_chapters_body web_down Demo.refill "/manga/one" Demo.tui_disk).2)
    = Demo.five_chapters.
Proof.
  split; [reflexivity|].
  rewrite (load_chapters_failure_leaves_state web_down Demo.refill "/manga/one" Demo.tui_disk
             "ConnectionError" eq_refl).
  split; reflexivity.
Defined.

(** [_save_session] never raises and changes nothing in the application
    but [theme_mode]; when the file cannot be written the environment is
    left as it was. *)
Theorem _save_session_swallows_write_failure (t : Tui) :
  let mode := if PyStr.truthy (theme (app t)) && PyStr.contains "dark" (theme (app t))
              then "dark" else "light" in
  let r := _save_session t in
  r.1 = Return () ∧
  app r.2 = set_theme_mode mode (app t) ∧
  workers r.2 = workers t ∧
  (state_file_writable (world t) = false → world r.2 = world t).
Proof.
  destruct t as [a w ws]. simpl.
  unfold _save_session, write_state_file. run_monad.
  destruct (state_file_writable w) eqn:Hw; simpl; repeat split; try done.
Qed.

Lemma _save_session_swallows_write_failure_witness :
  state_file_writable (mkWorld ∅ SF_missing false [] [] []) = false ∧
  world (_save_session (mkTui App_init (mkWorld ∅ SF_missing false [] [] []) [])).2
    = mkWorld ∅ SF_missing false [] [] [].
Proof.
  split; [reflexivity|].
  apply (_save_session_swallows_write_failure
           (mkTui App_init (mkWorld ∅ SF_missing false [] [] []) [])).
  reflexivity.
Defined.

(** [_set_range_from_cursor] records position cursor + 1 as the bound
    asked for and leaves the other bound alone, whatever their order;
    without a cursor it changes nothing in the range. *)
Theorem _set_range_from_cursor_sets_one_bound refill (is_start : bool) (t : Tui) :
  let r := _set_range_from_cursor refill is_start t in
  r.1 = Return () ∧
  range_of (app r.2) =
    match chapters_index (app t) with
    | None => range_of (app t)
    | Some index =>
        if is_start then (Some (index + 1), range_end (app t))
        else (range_start (app t), Some (index + 1))
    end.
Proof.
  simpl. unfold _set_range_from_cursor. rewrite run_bind. simpl.
  destruct (chapters_index (app t)) as [index|] eqn:Hidx; [|done].
  assert (keeps (on_app range_of)
            (_refresh_chapter_list refill;; _save_manga_cache;; _update_state)) as Hk.
  { unfold _refresh_chapter_list, _set_chapters, _save_manga_cache, _update_state,
      _save_state, _save_session. frames. }
  assert (succeeds (_refresh_chapter_list refill;; _save_manga_cache;; _update_state)) as Hs.
  { unfold _update_state. frames. }
  rewrite run_seq by (destruct is_start; frames).
  split; [apply succeeds_unit, Hs|].
  unfold keeps, on_app in Hk. rewrite Hk.
  destruct t as [a w ws]. by destruct is_start.
Qed.

(** ** Instances of the further properties *)

Lemma session_round_trip_witness :
  state_file_writable (world Demo.tui0) = true ∧
  last_query (app (_load_session
                     (mkTui App_init (world (_save_session Demo.tui0).2) [])).2)
    = last_query (app Demo.tui0) ∧
  selected_sources (app (_load_session
                           (mkTui App_init (world (_save_session Demo.tui0).2) [])).2)
    = selected_sources (app Demo.tui0).
Proof.
  split; [reflexivity|].
  destruct (session_round_trip Demo.tui0 eq_refl) as (_ & Hq & _ & _ & _ & Hs & _).
  split; [exact Hq | exact Hs].
Defined.

Lemma _load_session_tolerates_witness :
  state_file Demo.world0 = SF_missing ∧
  _load_session (mkTui App_init Demo.world0 []) = (Return (), mkTui App_init Demo.world0 []).
Proof.
  split; [reflexivity|].
  apply (_load_session_tolerates (mkTui App_init Demo.world0 [])).
  left. reflexivity.
Defined.

Lemma _select_range_bounds_ok_witness :
  Demo.five_chapters ≠ [] ∧
  ∃ lo hi, _select_range_bounds Demo.five_chapters (Some 7) (Some 9) = Some (lo, hi) ∧
           1 ≤ lo ∧ lo ≤ hi ∧ hi ≤ 5.
Proof.
  split; [discriminate|].
  apply (_select_range_bounds_ok Demo.five_chapters (Some 7) (Some 9)). discriminate.
Defined.

Lemma _select_range_bounds_spec_witness :
  Demo.five_chapters ≠ [] ∧ Some 4 ≠ Some 0 ∧
  _select_range_bounds Demo.five_chapters (Some 0) (Some 4) = Some (1, 4).
Proof.
  split; [discriminate|]. split; [discriminate|].
  apply (_select_range_bounds_spec Demo.five_chapters (Some 0) (Some 4)); discriminate.
Defined.

Lemma sync_downloaded_exact_when_unique_witness :
  selected_manga (app Demo.tui_disk) = Some Demo.m1 ∧
  identifiers_unique (chapters (app Demo.tui_disk)) ∧
  Demo.chapter "4" ∈ chapters (app Demo.tui_disk) ∧
  ¬ (ch_id (Demo.chapter "4") ∈ reconciled_set Demo.tui_disk Demo.m1 ∧
     ch_slug (Demo.chapter "4") ∈ reconciled_set Demo.tui_disk Demo.m1).
Proof.
  assert (Demo.chapter "4" ∈ chapters (app Demo.tui_disk)) as Hin
    by (apply list_elem_of_further, list_elem_of_here).
  split; [reflexivity|]. split; [exact five_chapters_identifiers_unique|].
  split; [exact Hin|].
  intros Hboth.
  apply (sync_downloaded_exact_when_unique Demo.tui_disk Demo.m1 (Demo.chapter "4") eq_refl
           five_chapters_identifiers_unique Hin) in Hboth.
  vm_compute in Hboth. discriminate Hboth.
Defined.
